(** * Dashboard financiero: metric computation and data assembly

    A shallow embedding of [dashboard_financiero.py].  Prices, returns and
    metrics are IEEE-754 binary64 values, as in the Python program, and are
    modelled by Rocq's primitive [float]: every arithmetic step below is the
    one the interpreter performs, with the same rounding, infinities and NaN.

    The pandas and numpy operations the script calls ([pct_change], [dropna],
    [std], [quantile], [cumprod], [expanding().max()], [round], [corr]) are
    written out on columns represented as lists: [pct_change] without filling
    (its input has no missing value), reductions with [skipna=True], [std]
    with [ddof=1], [quantile] by linear interpolation, [round] as numpy's
    scale-[rint]-unscale, [corr] as the one-pass routine that fills both
    halves of the matrix from one coefficient per pair.  Sums run left to
    right, which is the order numpy uses for columns of fewer than eight
    rows; on longer columns numpy's pairwise summation can differ in the last
    bits.

    The market-data client is a function from ticker to outcome; Streamlit's
    widgets are reduced to the messages a render pass shows and to whether it
    stops. *)

From Stdlib Require Import Floats ZArith Bool String List Lia.
Import ListNotations.

Open Scope float_scope.

(** ** Binary64 helpers *)

(** A Python [int] converted to [float] (row counts, [nobs]). *)
Definition of_nat (n : nat) : float :=
  of_uint63 (Uint63.of_Z (Z.of_nat n)).

Definition notna (x : float) : bool := negb (is_nan x).

(** Finite and different from zero: what a quoted price is. *)
Definition finito_no_nulo (x : float) : bool :=
  match classify x with
  | PNormal | NNormal | PSubn | NSubn => true
  | _ => false
  end.

(** Zero of either sign, or negative: the floats [x] with [x <= 0]. *)
Definition no_positivo (x : float) : bool := x <=? 0.

Definition copysign (m x : float) : float :=
  if get_sign x then - (abs m) else abs m.

(** [numpy.rint]: nearest integer, ties to even, sign kept.  Below [2^52]
    adding and subtracting [2^52] rounds to an integer in the default
    rounding mode; from [2^52] on every binary64 value is an integer. *)
Definition rint (x : float) : float :=
  if abs x <? 0x1p52 then copysign ((abs x + 0x1p52) - 0x1p52) x else x.

(** [numpy.round(x, 2)]: scale by [10^2], [rint], scale back. *)
Definition round2 (x : float) : float := rint (x * 100) / 100.

(** [np.sqrt(252)] *)
Definition sqrt252 : float := PrimFloat.sqrt 252.

(** ** Series: one column of values, in row order *)

Abbreviation Serie := (list float).

(** [skipna=True]: reductions see only the values that are not NaN. *)
Definition validos (l : Serie) : Serie := filter notna l.

(** [numpy.add.reduce]: starts from the first element. *)
Definition suma (l : Serie) : float :=
  match l with
  | [] => 0
  | x :: t => fold_left add t x
  end.

(** [Series.mean()] *)
Definition mean (l : Serie) : float :=
  let v := validos l in
  suma v / of_nat (length v).

(** [Series.var()] with [ddof=1]: two passes, missing below two values. *)
Definition var (l : Serie) : float :=
  let v := validos l in
  if (length v <=? 1)%nat then nan
  else
    let avg := suma v / of_nat (length v) in
    suma (map (fun x => (avg - x) * (avg - x)) v) / of_nat (length v - 1).

(** [Series.std()] *)
Definition std (l : Serie) : float := PrimFloat.sqrt (var l).

(** [Series.min()] and [Series.max()] *)
Definition min (l : Serie) : float :=
  match validos l with
  | [] => nan
  | x :: t => fold_left (fun a y => if a <? y then a else y) t x
  end.

Definition max (l : Serie) : float :=
  match validos l with
  | [] => nan
  | x :: t => fold_left (fun a y => if y <? a then a else y) t x
  end.

Fixpoint insertar (x : float) (l : Serie) : Serie :=
  match l with
  | [] => [x]
  | y :: t => if x <=? y then x :: l else y :: insertar x t
  end.

Definition ordenar (l : Serie) : Serie := fold_right insertar [] l.

(** [floor] of a float known to lie in [0, n]. *)
Definition piso (x : float) (n : nat) : nat :=
  length (filter (fun k => of_nat k <=? x) (seq 1 n)).

(** numpy's linear interpolation between two neighbours. *)
Definition lerp (a b t : float) : float :=
  let diff_b_a := b - a in
  if 0.5 <=? t then b - diff_b_a * (1 - t) else a + diff_b_a * t.

(** [Series.quantile(q)], numpy's method [linear]: the virtual index, its
    two neighbours (both the last element from [n - 1] on, both the first one
    below 0) and the interpolation between them. *)
Definition quantile (q : float) (l : Serie) : float :=
  let v := ordenar (validos l) in
  let n := length v in
  match n with
  | O => nan
  | S n1 =>
      let virtual_index := of_nat n * q + (1 + q * (-1)) - 1 in
      let '(previous, next, previous_index) :=
        if of_nat n1 <=? virtual_index then (n1, n1, -1)
        else if virtual_index <? 0 then (O, O, 0)
        else let p := piso virtual_index n1 in (p, S p, of_nat p) in
      let gamma := virtual_index - previous_index in
      lerp (nth previous v nan) (nth next v nan) gamma
  end.

(** [Series.pct_change()]: first row missing, then [x_t / x_(t-1) - 1]. *)
Fixpoint pct_desde (prev : float) (l : Serie) : Serie :=
  match l with
  | [] => []
  | x :: t => (x / prev - 1) :: pct_desde x t
  end.

Definition pct_change_serie (l : Serie) : Serie :=
  match l with
  | [] => []
  | x :: t => nan :: pct_desde x t
  end.

(** [Series.cumprod()] *)
Fixpoint cumprod_desde (acc : float) (l : Serie) : Serie :=
  match l with
  | [] => []
  | x :: t => let a := acc * x in a :: cumprod_desde a t
  end.

Definition cumprod (l : Serie) : Serie :=
  match l with
  | [] => []
  | x :: t => x :: cumprod_desde x t
  end.

(** [Series.expanding().max()]: running maximum of the values seen so far;
    a NaN is not an observation, and [m = nan] stands for no observation. *)
Definition max_paso (m c : float) : float :=
  if is_nan c then m else if is_nan m then c else if m <=? c then c else m.

Fixpoint expanding_max_desde (m : float) (l : Serie) : Serie :=
  match l with
  | [] => []
  | c :: t => let m' := max_paso m c in m' :: expanding_max_desde m' t
  end.

Definition expanding_max (l : Serie) : Serie := expanding_max_desde nan l.

Fixpoint map2 {A B C} (f : A -> B -> C) (l : list A) (l' : list B) : list C :=
  match l, l' with
  | x :: t, y :: t' => f x y :: map2 f t t'
  | _, _ => []
  end.

(** ** Tables *)

(** A [pandas.DataFrame]: row labels and named columns, in order. *)
Record DataFrame (I : Type) := mkDF {
  index : list I;
  columns : list (string * Serie)
}.
Arguments mkDF {I} _ _.
Arguments index {I} _.
Arguments columns {I} _.

Definition nrows {I} (df : DataFrame I) : nat := length (index df).
Definition ncols {I} (df : DataFrame I) : nat := length (columns df).
Definition nombres {I} (df : DataFrame I) : list string := map fst (columns df).

(** [df.empty]: no rows or no columns. *)
Definition empty {I} (df : DataFrame I) : bool :=
  ((nrows df =? 0) || (ncols df =? 0))%nat.

(** Every column has one value per row. *)
Definition bien_formada {I} (df : DataFrame I) : bool :=
  forallb (fun c => (length (snd c) =? nrows df)%nat) (columns df).

(** The table has no missing value. *)
Definition sin_faltantes {I} (df : DataFrame I) : bool :=
  forallb (fun c => forallb notna (snd c)) (columns df).

(** Every entry of the table satisfies [p]. *)
Definition todas {I} (p : float -> bool) (df : DataFrame I) : bool :=
  forallb (fun c => forallb p (snd c)) (columns df).

Definition por_columna {I} (f : Serie -> Serie) (df : DataFrame I) : DataFrame I :=
  mkDF (index df) (map (fun c => (fst c, f (snd c))) (columns df)).

(** A column-wise reduction: one value per instrument. *)
Definition agg {I} (f : Serie -> float) (df : DataFrame I) : Serie :=
  map (fun c => f (snd c)) (columns df).

Fixpoint buscar {V} (k : string) (l : list (string * V)) : option V :=
  match l with
  | [] => None
  | (k', v) :: t => if String.eqb k k' then Some v else buscar k t
  end.

(** [df.loc[fila, columna]] on a table indexed by names. *)
Definition loc (df : DataFrame string) (fila columna : string) : option float :=
  match buscar columna (columns df) with
  | Some s => buscar fila (combine (index df) s)
  | None => None
  end.

Fixpoint filtrar {A} (m : list bool) (l : list A) : list A :=
  match m, l with
  | b :: m', x :: l' => if b then x :: filtrar m' l' else filtrar m' l'
  | _, _ => []
  end.

(** Rows in which every column has a value. *)
Definition filas_completas {I} (df : DataFrame I) : list bool :=
  fold_right (fun c m => map2 andb (map notna (snd c)) m)
             (repeat true (nrows df)) (columns df).

(** [df.dropna()]: drop every row that has a missing value. *)
Definition dropna {I} (df : DataFrame I) : DataFrame I :=
  let m := filas_completas df in
  mkDF (filtrar m (index df))
       (map (fun c => (fst c, filtrar m (snd c))) (columns df)).

(** [df.pct_change()] *)
Definition pct_change {I} (df : DataFrame I) : DataFrame I :=
  por_columna pct_change_serie df.

(** [df.round(2)] *)
Definition round_df {I} (df : DataFrame I) : DataFrame I :=
  por_columna (map round2) df.

(** [df.iloc[0]] and [df.iloc[-1]]: [None] is the [IndexError] pandas raises
    on a table without rows. *)
Definition iloc_primera {I} (df : DataFrame I) : option Serie :=
  match index df with
  | [] => None
  | _ => Some (agg (fun c => hd nan c) df)
  end.

Definition iloc_ultima {I} (df : DataFrame I) : option Serie :=
  match index df with
  | [] => None
  | _ => Some (agg (fun c => last c nan) df)
  end.

(** ** Metric computation *)

Inductive Excepcion := IndexError.

Inductive Resultado (A : Type) :=
  | Ok (a : A)
  | Raise (e : Excepcion).
Arguments Ok {A} _.
Arguments Raise {A} _.

(** [retornos[retornos < 0]]: the values that are not negative become NaN. *)
Definition solo_negativos (r : Serie) : Serie :=
  map (fun x => if x <? 0 then x else nan) r.

(** [(1 + retornos).cumprod()] *)
Definition cumulative (r : Serie) : Serie := cumprod (map (fun x => 1 + x) r).

(** [cumulative.expanding().max()] *)
Definition running_max (r : Serie) : Serie := expanding_max (cumulative r).

(** [(cumulative - running_max) / running_max] *)
Definition drawdown (r : Serie) : Serie :=
  map2 (fun c m => (c - m) / m) (cumulative r) (running_max r).

Definition sharpe (r : Serie) : float := (mean r / std r) * sqrt252.

Definition sortino (r : Serie) : float :=
  let retornos_negativos := solo_negativos r in
  let downside_std := std retornos_negativos in
  (mean r / downside_std) * sqrt252.

(** The metrics table as the function builds it, column after column,
    before the final [round(2)]. *)
Definition metricas_sin_redondear (datos retornos : DataFrame Z)
    (primera ultima : Serie) : DataFrame string :=
  mkDF (nombres datos)
    [ ("Precio Inicial", primera);
      ("Precio Final", ultima);
      ("Rendimiento (%)", map2 (fun f i => (f / i - 1) * 100) ultima primera);
      ("Volatilidad Diaria (%)", agg (fun r => std r * 100) retornos);
      ("Volatilidad Anualizada (%)", agg (fun r => std r * sqrt252 * 100) retornos);
      ("Sharpe", agg sharpe retornos);
      ("Sortino", agg sortino retornos);
      ("VaR 5% (%)", agg (fun r => quantile (5 / 100) r * 100) retornos);
      ("Max Retorno (%)", agg (fun r => max r * 100) retornos);
      ("Min Retorno (%)", agg (fun r => min r * 100) retornos);
      ("Max Drawdown (%)", agg (fun r => min (drawdown r) * 100) retornos) ]%string.

(** [calcular_metricas(datos)]: the metrics table and the returns table. *)
Definition calcular_metricas (datos : DataFrame Z)
    : Resultado (DataFrame string * DataFrame Z) :=
  let retornos := dropna (pct_change datos) in
  match iloc_primera datos, iloc_ultima datos with
  | Some primera, Some ultima =>
      let metricas := metricas_sin_redondear datos retornos primera ultima in
      Ok (round_df metricas, retornos)
  | _, _ => Raise IndexError
  end.

(** ** Correlation matrix *)

(** Running state of pandas' [nancorr] for one pair of columns. *)
Record Welford := mkW {
  nobs : nat;
  meanx : float; meany : float;
  ssqdm_x : float; ssqdm_y : float;
  covxy : float
}.

Definition welford_inicial : Welford := mkW 0 0 0 0 0 0.

Definition welford_paso (w : Welford) (v : float * float) : Welford :=
  let '(vx, vy) := v in
  if notna vx && notna vy then
    let n := S (nobs w) in
    let dx := vx - meanx w in
    let dy := vy - meany w in
    let mx := meanx w + 1 / of_nat n * dx in
    let my := meany w + 1 / of_nat n * dy in
    mkW n mx my
        (ssqdm_x w + (vx - mx) * dx)
        (ssqdm_y w + (vy - my) * dy)
        (covxy w + (vx - mx) * dy)
  else w.

(** The coefficient is clipped to [-1, 1]. *)
Definition recortar (val : float) : float :=
  if 1 <? val then 1 else if val <? -1 then -1 else val.

Definition coeficiente (w : Welford) : float :=
  if (nobs w <? 1)%nat then nan
  else
    let divisor := PrimFloat.sqrt (ssqdm_x w * ssqdm_y w) in
    if divisor =? 0 then nan else recortar (covxy w / divisor).

(** Pearson correlation of two columns over the rows where both have a
    value ([min_periods = 1]). *)
Definition nancorr_par (x y : Serie) : float :=
  coeficiente (fold_left welford_paso (combine x y) welford_inicial).

Definition columna_n {I} (df : DataFrame I) (i : nat) : Serie :=
  nth i (map snd (columns df)) [].

(** pandas computes the coefficient once for every pair [yi <= xi] and
    stores it in both [result[xi, yi]] and [result[yi, xi]]. *)
Definition entrada_corr {I} (df : DataFrame I) (xi yi : nat) : float :=
  if (yi <=? xi)%nat
  then nancorr_par (columna_n df xi) (columna_n df yi)
  else nancorr_par (columna_n df yi) (columna_n df xi).

(** [df.corr()] *)
Definition corr {I} (df : DataFrame I) : DataFrame string :=
  let K := ncols df in
  mkDF (nombres df)
       (map (fun yi => (nth yi (nombres df) EmptyString,
                        map (fun xi => entrada_corr df xi yi) (seq 0 K)))
            (seq 0 K)).

(** [m.iloc[fila, columna]] *)
Definition iloc {I} (m : DataFrame I) (fila columna : nat) : float :=
  nth fila (columna_n m columna) nan.

(** ** Data acquisition *)

(** What one call to the market-data client does: it raises (the message is
    [str(e)]) or it returns a table indexed by date, one row per date, with
    plain column names. *)
Inductive Respuesta :=
  | Lanza (e : string)
  | Devuelve (df : DataFrame Z).

Fixpoint buscar_fecha (d : Z) (l : list (Z * float)) : option float :=
  match l with
  | [] => None
  | (d', v) :: t => if Z.eqb d d' then Some v else buscar_fecha d t
  end.

(** Align a series to the row labels of the table: dates the series lacks
    become NaN, dates only the series has are dropped. *)
Definition reindexar (idx s_idx : list Z) (s : Serie) : Serie :=
  map (fun d => match buscar_fecha d (combine s_idx s) with
                | Some v => v
                | None => nan
                end) idx.

Fixpoint poner (k : string) (v : Serie) (cols : list (string * Serie))
    : list (string * Serie) :=
  match cols with
  | [] => [(k, v)]
  | (k', v') :: t =>
      if String.eqb k k' then (k, v) :: t else (k', v') :: poner k v t
  end.

(** [datos[ticker] = serie]: a table without rows takes the row labels of
    the series; the column is replaced in place or appended. *)
Definition asignar (datos : DataFrame Z) (ticker : string)
    (s_idx : list Z) (s : Serie) : DataFrame Z :=
  match index datos with
  | [] =>
      mkDF s_idx
           (poner ticker (reindexar s_idx s_idx s)
                  (map (fun c => (fst c, map (fun _ => nan) s_idx)) (columns datos)))
  | idx => mkDF idx (poner ticker (reindexar idx s_idx s) (columns datos))
  end.

(** The outcome of one ticker: the [Close] series, or the warning text. *)
Definition obtener (yf : string -> Respuesta) (ticker : string)
    : (list Z * Serie) + string :=
  match yf ticker with
  | Lanza e => inr (ticker ++ ": " ++ e)%string
  | Devuelve df =>
      if negb (empty df) then
        match buscar "Close" (columns df) with
        | Some close => inl (index df, close)
        | None => inr (ticker ++ ": Formato inesperado")%string
        end
      else inr (ticker ++ ": Sin datos disponibles")%string
  end.

(** One iteration of the download loop on the pair [(datos, errores)]. *)
Definition descargar_paso (yf : string -> Respuesta)
    (st : DataFrame Z * list string) (ticker : string)
    : DataFrame Z * list string :=
  let '(datos, errores) := st in
  match obtener yf ticker with
  | inl (s_idx, close) => (asignar datos ticker s_idx close, errores)
  | inr aviso => (datos, errores ++ [aviso])
  end.

(** The loop of [descargar_datos]: the assembled table before incomplete rows
    are dropped, and the list [errores]. *)
Definition ensamblar (yf : string -> Respuesta) (tickers : list string)
    : DataFrame Z * list string :=
  fold_left (descargar_paso yf) tickers (mkDF [] [], []).

(** [descargar_datos(tickers, inicio, fin)]: the table it returns and the
    warnings it shows.  The date range only reaches the client, so it is part
    of [yf]. *)
Definition descargar_datos (yf : string -> Respuesta) (tickers : list string)
    : DataFrame Z * list string :=
  let '(datos, errores) := ensamblar yf tickers in
  (dropna datos, errores).

(** The ticker's fetch fails: exception, empty result or unexpected schema. *)
Definition falla (yf : string -> Respuesta) (ticker : string) : bool :=
  match obtener yf ticker with
  | inl _ => false
  | inr _ => true
  end.

Definition aviso_de (yf : string -> Respuesta) (ticker : string) : string :=
  match obtener yf ticker with
  | inl _ => EmptyString
  | inr a => a
  end.

Fixpoint sin_repetidos (l : list string) : bool :=
  match l with
  | [] => true
  | x :: t => negb (existsb (String.eqb x) t) && sin_repetidos t
  end.

(** ** One render pass of the page *)

Inductive Mensaje :=
  | Advertencia (s : string)
  | Error (s : string).

(** [Detenido]: the pass ended in [st.stop()] before any metric was
    computed.  [Renderizado]: metrics, returns and correlations were
    computed and handed to the charts and tables. *)
Inductive Pase :=
  | Detenido (mensajes : list Mensaje)
  | Renderizado (mensajes : list Mensaje)
      (metricas : DataFrame string) (retornos : DataFrame Z)
      (correlaciones : DataFrame string)
  | Excepcion_no_capturada (e : Excepcion).

(** The page, from the selection check to the correlation tab.  The loop of
    [descargar_datos] catches the exception of every ticker itself, so the
    [except] around the call has nothing to catch. *)
Definition pase (yf : string -> Respuesta) (activos_seleccionados : list string)
    : Pase :=
  match activos_seleccionados with
  | [] =>
      Detenido [Advertencia "⚠️ Selecciona al menos un activo en el panel lateral para comenzar el análisis"]
  | _ =>
      let '(datos, errores) := descargar_datos yf activos_seleccionados in
      let avisos := map Advertencia errores in
      if empty datos then
        Detenido (avisos ++ [Error "❌ No se pudieron descargar datos válidos. Verifica los tickers y el período seleccionado."])
      else
        match calcular_metricas datos with
        | Ok (metricas, retornos) =>
            Renderizado avisos metricas retornos (corr retornos)
        | Raise e => Excepcion_no_capturada e
        end
  end.

(** The unrounded table of a price table that has rows. *)
Definition metricas_crudas (datos : DataFrame Z) : DataFrame string :=
  metricas_sin_redondear datos (dropna (pct_change datos))
    (agg (fun c => hd nan c) datos) (agg (fun c => last c nan) datos).

(** The Sortino ratio in the words of the specification: the mean of all
    returns over the standard deviation of the strictly negative returns
    only, times the square root of 252. *)
Definition sortino_segun_spec (r : Serie) : float :=
  mean r / std (filter (fun x => x <? 0) r) * sqrt252.

(** ** Predicates used in the statements and proofs *)

(** A path that never goes down. *)
Fixpoint no_decreciente (l : Serie) : bool :=
  match l with
  | x :: (y :: _) as t => (x <=? y) && no_decreciente t
  | _ => true
  end.

(** A zero of either sign, or NaN. *)
Definition cero_o_nan (x : float) : bool := is_zero x || is_nan x.

(** A value that is not NaN and whose sign bit is [s]. *)
Definition con_signo (s : bool) (r : spec_float) : Prop :=
  match r with
  | S754_zero s' | S754_infinity s' | S754_finite s' _ _ => s' = s
  | S754_nan => False
  end.

(** A cumulative value that is zero, infinite or NaN, with a running maximum
    of the same kind: no drawdown can be computed from it, nor later. *)
Definition especial (c m : float) : Prop :=
  match Prim2SF c, Prim2SF m with
  | (S754_zero _ | S754_nan), S754_zero _ => True
  | (S754_infinity _ | S754_nan), S754_infinity _ => True
  | S754_nan, S754_nan => True
  | _, _ => False
  end.

(** The rows [dropna] keeps of the day-over-day changes of [cols]. *)
Definition mascara_pct (n : nat) (cols : list (string * Serie)) : list bool :=
  fold_right (fun c m => map2 andb (map notna (snd c)) m) (repeat true n)
    (map (fun c => (fst c, pct_change_serie (snd c))) cols).

(** ** Example tables *)

Definition precios_100_110_121 : DataFrame Z :=
  mkDF [1; 2; 3]%Z [("A"%string, [100; 110; 121])].


Definition precios_100_102_101_105 : DataFrame Z :=
  mkDF [1; 2; 3; 4]%Z [("A"%string, [100; 102; 101; 105])].


Definition precios_100_98_99_97_100 : DataFrame Z :=
  mkDF [1; 2; 3; 4; 5]%Z [("A"%string, [100; 98; 99; 97; 100])].

(** One instrument that moves and one whose close never changes. *)
Definition precios_con_plano : DataFrame Z :=
  mkDF [1; 2; 3; 4]%Z
    [("A"%string, [100; 102; 101; 105]); ("B"%string, [50; 50; 50; 50])].

(** ** Example market-data clients *)

(** [GGAL.BA] and [PAM.BA] come back with closes; [YPF] times out. *)
Definition yf_uno_falla (ticker : string) : Respuesta :=
  if String.eqb ticker "GGAL.BA" then
    Devuelve (mkDF [1; 2; 3]%Z
                [("Close"%string, [100; 110; 121]);
                 ("Volume"%string, [10; 20; 30])])
  else if String.eqb ticker "PAM.BA" then
    Devuelve (mkDF [1; 2; 3]%Z [("Close"%string, [50; 51; 49])])
  else Lanza "timed out".

(** Nothing comes back for any ticker. *)
Definition yf_sin_datos (ticker : string) : Respuesta :=
  Devuelve (mkDF [] []).

(** ** The rest of the page *)

(** *** Sidebar *)

Definition activos_disponibles : list (string * list string) :=
  [ ("Acciones Argentina", ["GGAL.BA"; "YPF"; "GLOB"; "PAM.BA"; "LOMA.BA"]);
    ("Tech USA", ["AAPL"; "MSFT"; "GOOGL"; "META"; "NVDA"; "TSLA"]);
    ("ETFs Globales", ["SPY"; "QQQ"; "EEM"; "VTI"; "IWM"]);
    ("Crypto", ["BTC-USD"; "ETH-USD"; "BNB-USD"]) ]%string.

(** [st.multiselect(label, options)]: the widget keeps the positions the
    user picked, each at most once, in the order picked, and returns the
    options at those positions. *)
Definition multiselect (options : list string) (elegidos : list nat)
    : list string :=
  flat_map (fun i => match nth_error options i with
                     | Some o => [o]
                     | None => []
                     end) elegidos.

(** [default=activos_disponibles[categoria][:3]] *)
Definition seleccion_por_defecto (options : list string) : list string :=
  firstn 3 options.

(** *** Summary cards *)

(** [numpy.argmax]: position of the first largest value. *)
Fixpoint argmax_desde (i mejor_i : nat) (mejor : float) (l : Serie) : nat :=
  match l with
  | [] => mejor_i
  | x :: t =>
      if mejor <? x then argmax_desde (S i) i x t
      else argmax_desde (S i) mejor_i mejor t
  end.

Definition argmax (l : Serie) : nat :=
  match l with
  | [] => O
  | x :: t => argmax_desde 1 0 x t
  end.

(** [numpy.argmin]: position of the first smallest value. *)
Fixpoint argmin_desde (i mejor_i : nat) (mejor : float) (l : Serie) : nat :=
  match l with
  | [] => mejor_i
  | x :: t =>
      if x <? mejor then argmin_desde (S i) i x t
      else argmin_desde (S i) mejor_i mejor t
  end.

Definition argmin (l : Serie) : nat :=
  match l with
  | [] => O
  | x :: t => argmin_desde 1 0 x t
  end.

(** [Series.idxmax()]: NaN counts as minus infinity and the label at the
    first maximum is returned.  [None]: the column is empty or all NaN;
    pandas then raises [ValueError], or (before version 3) returns NaN, on
    which the [metricas.loc[...]] that follows raises [KeyError]. *)
Definition idxmax (idx : list string) (s : Serie) : option string :=
  if forallb is_nan s then None
  else nth_error idx
         (argmax (map (fun x => if is_nan x then neg_infinity else x) s)).

(** [Series.idxmin()]: the same with plus infinity and the first minimum. *)
Definition idxmin (idx : list string) (s : Serie) : option string :=
  if forallb is_nan s then None
  else nth_error idx
         (argmin (map (fun x => if is_nan x then infinity else x) s)).

(** One card: the label a column's [idxmax] or [idxmin] gives and the value
    [metricas.loc[label, columna]].  [None]: an exception ends the pass. *)
Definition tarjeta (idx : list string -> Serie -> option string)
    (metricas : DataFrame string) (columna : string)
    : option (string * float) :=
  match buscar columna (columns metricas) with
  | Some s =>
      match idx (index metricas) s with
      | Some etiqueta =>
          match loc metricas etiqueta columna with
          | Some valor => Some (etiqueta, valor)
          | None => None
          end
      | None => None
      end
  | None => None
  end.

Record Resumen := mkResumen {
  activos : nat;
  mejor : string * float;
  peor : string * float;
  mejor_sharpe : string * float;
  dias_analisis : nat
}.

(** The five cards of the executive summary, in the order of the page. *)
Definition resumen_ejecutivo (datos : DataFrame Z) (metricas : DataFrame string)
    : option Resumen :=
  match tarjeta idxmax metricas "Rendimiento (%)" with
  | Some mejor =>
      match tarjeta idxmin metricas "Rendimiento (%)" with
      | Some peor =>
          match tarjeta idxmax metricas "Sharpe" with
          | Some mejor_sharpe =>
              Some (mkResumen (ncols datos) mejor peor mejor_sharpe (nrows datos))
          | None => None
          end
      | None => None
      end
  | None => None
  end.

(** *** Price evolution tab *)

(** [(datos / datos.iloc[0]) * 100]: every column over its first value. *)
Definition datos_norm (datos : DataFrame Z) : Resultado (DataFrame Z) :=
  match iloc_primera datos with
  | Some primera =>
      Ok (mkDF (index datos)
            (map2 (fun c p => (fst c, map (fun x => x / p * 100) (snd c)))
                  (columns datos) primera))
  | None => Raise IndexError
  end.

Record Traza := mkTraza {
  nombre : string;
  eje_x : list Z;
  eje_y : Serie
}.

Record Figura := mkFigura {
  trazas : list Traza;
  lineas_h : list float
}.

(** [crear_grafico_evolucion(datos_norm)]: one line per column name, read
    from the table by that name, and the dashed line at 100. *)
Definition crear_grafico_evolucion (datos_norm : DataFrame Z) : Figura :=
  mkFigura
    (map (fun col =>
            mkTraza col (index datos_norm)
              (match buscar col (columns datos_norm) with
               | Some s => s
               | None => []
               end))
         (nombres datos_norm))
    [100].


(** *** Risk-return tab *)

(** [Series.median()]: numpy's mean of the middle value, or of the two
    middle values, of the sorted values that are not NaN. *)
Definition median (l : Serie) : float :=
  let v := ordenar (validos l) in
  let n := length v in
  match n with
  | O => nan
  | _ =>
      if Nat.even n
      then suma [nth (n / 2 - 1) v nan; nth (n / 2) v nan] / of_nat 2
      else suma [nth (n / 2) v nan] / of_nat 1
  end.

(** The two quadrant lists: the instruments above the median return and
    below the median volatility, and those below the median return and above
    the median volatility.  [None] is the [KeyError] of a missing column. *)
Definition cuadrantes (metricas : DataFrame string)
    : option (list string * list string) :=
  match buscar "Volatilidad Anualizada (%)" (columns metricas),
        buscar "Rendimiento (%)" (columns metricas) with
  | Some vol, Some rend =>
      let vol_mediana := median vol in
      let rend_mediano := median rend in
      let ideal :=
        filtrar (map2 andb (map (fun x => rend_mediano <? x) rend)
                           (map (fun x => x <? vol_mediana) vol))
                (index metricas) in
      let evitar :=
        filtrar (map2 andb (map (fun x => x <? rend_mediano) rend)
                           (map (fun x => vol_mediana <? x) vol))
                (index metricas) in
      Some (ideal, evitar)
  | _, _ => None
  end.

(** What a quadrant shows: the names joined by commas, or the notice that
    it is empty. *)
Inductive Aviso_cuadrante :=
  | Lista (texto : string)
  | Ninguno.

Definition mostrar_cuadrante (l : list string) : Aviso_cuadrante :=
  match l with
  | [] => Ninguno
  | _ => Lista (String.concat ", " l)
  end.

(** ** What a download holds, for the statements *)

(** The dates of the first ticker of the request whose fetch succeeds. *)
Fixpoint fechas_primer_exito (yf : string -> Respuesta) (tickers : list string)
    : list Z :=
  match tickers with
  | [] => []
  | t :: resto =>
      match obtener yf t with
      | inl (s_idx, _) => s_idx
      | inr _ => fechas_primer_exito yf resto
      end
  end.

(** The close the client gave for [ticker] on date [d]; NaN when it gave
    none. *)
Definition valor_en (yf : string -> Respuesta) (ticker : string) (d : Z)
    : float :=
  match obtener yf ticker with
  | inl (s_idx, close) =>
      match buscar_fecha d (combine s_idx close) with
      | Some v => v
      | None => nan
      end
  | inr _ => nan
  end.

(** The date has a close for every ticker of the request that succeeds. *)
Definition fecha_completa (yf : string -> Respuesta) (tickers : list string)
    (d : Z) : bool :=
  forallb (fun t => falla yf t || notna (valor_en yf t d)) tickers.

(** Every column is a ticker whose fetch succeeds, holding its closes on
    the dates of the table. *)
Definition coherente (yf : string -> Respuesta) (datos : DataFrame Z) : Prop :=
  forall c, In c (columns datos) ->
    falla yf (fst c) = false /\
    snd c = map (valor_en yf (fst c)) (index datos).

(** ** Further example tables *)

(** Two trading days. *)
Definition precios_dos_dias : DataFrame Z :=
  mkDF [1; 2]%Z
    [("AAPL"%string, [100; 101]); ("MSFT"%string, [200; 198])].

(** Three instruments over four days. *)
Definition precios_tres_activos : DataFrame Z :=
  mkDF [1; 2; 3; 4]%Z
    [("AAPL"%string, [100; 102; 101; 105]);
     ("MSFT"%string, [200; 198; 204; 202]);
     ("GOOGL"%string, [50; 51; 49; 48])].

(** [SPY] comes back for three days, [BTC-USD] for five: the days only
    [BTC-USD] has are dropped, and [QQQ] has nothing. *)
Definition yf_fechas_distintas (ticker : string) : Respuesta :=
  if String.eqb ticker "SPY" then
    Devuelve (mkDF [1; 2; 5]%Z [("Close"%string, [400; 402; 401])])
  else if String.eqb ticker "BTC-USD" then
    Devuelve (mkDF [1; 2; 3; 4; 5]%Z
                [("Close"%string, [60000; 61000; 59000; 62000; 63000])])
  else Devuelve (mkDF [] []).

(** * Properties *)

(** ** Binary64 facts, read off the specification of the operations *)

Section Binary64.

Lemma is_nan_spec (x : float) :
  is_nan x = match Prim2SF x with S754_nan => true | _ => false end.
Proof.
  unfold is_nan. rewrite FloatAxioms.eqb_spec.
  destruct (Prim2SF x) as [s|s| |s m e]; try destruct s; simpl; try reflexivity;
    unfold SFeqb, SFcompare; rewrite Z.compare_refl, Pos.compare_cont_refl;
    reflexivity.
Qed.

Lemma finito_no_nulo_spec (x : float) :
  finito_no_nulo x =
  match Prim2SF x with S754_finite _ _ _ => true | _ => false end.
Proof.
  unfold finito_no_nulo. rewrite classify_spec.
  unfold SF64classify, SFclassify.
  destruct (Prim2SF x) as [s|s| |s m e]; try destruct s; try reflexivity;
    destruct (Z.eqb _ _); reflexivity.
Qed.

Lemma no_positivo_spec (x : float) :
  no_positivo x =
  match Prim2SF x with
  | S754_zero _ | S754_finite true _ _ | S754_infinity true => true
  | _ => false
  end.
Proof.
  unfold no_positivo. rewrite leb_spec.
  change (Prim2SF 0) with (S754_zero false).
  destruct (Prim2SF x) as [s|s| |s m e]; try destruct s; reflexivity.
Qed.

Lemma is_zero_spec (x : float) :
  is_zero x = match Prim2SF x with S754_zero _ => true | _ => false end.
Proof.
  unfold is_zero. rewrite FloatAxioms.eqb_spec.
  change (Prim2SF zero) with (S754_zero false).
  destruct (Prim2SF x) as [s|s| |s m e]; try destruct s; reflexivity.
Qed.

Lemma shr_1_nonneg (mrs : shr_record) :
  (0 <= shr_m mrs)%Z -> (0 <= shr_m (shr_1 mrs))%Z.
Proof.
  destruct mrs as [m r s]; simpl.
  destruct m as [|p|p]; try destruct p; simpl; lia.
Qed.

Lemma iter_shr_1_nonneg (p : positive) (mrs : shr_record) :
  (0 <= shr_m mrs)%Z -> (0 <= shr_m (SpecFloat.iter_pos shr_1 p mrs))%Z.
Proof.
  revert mrs; induction p as [p IH|p IH|]; simpl; intros mrs H.
  - apply IH, IH, shr_1_nonneg, H.
  - apply IH, IH, H.
  - apply shr_1_nonneg, H.
Qed.

Lemma shr_fexp_nonneg (m e : Z) (l : location) :
  (0 <= m)%Z -> (0 <= shr_m (fst (shr_fexp prec emax m e l)))%Z.
Proof.
  intros H. unfold shr_fexp, shr.
  assert (H0 : (0 <= shr_m (shr_record_of_loc m l))%Z)
    by (destruct l as [|[]]; exact H).
  destruct (_ - e)%Z; simpl; auto using iter_shr_1_nonneg.
Qed.

Lemma round_nearest_even_nonneg (m : Z) (l : location) :
  (0 <= m)%Z -> (0 <= round_nearest_even m l)%Z.
Proof.
  intros H. destruct l as [|[]]; simpl; try lia.
  destruct (Z.even m); lia.
Qed.

(** Rounding a non-negative mantissa never yields NaN and keeps the sign. *)
Lemma binary_round_aux_signo (s : bool) (m e : Z) (l : location) :
  (0 <= m)%Z -> con_signo s (binary_round_aux prec emax s m e l).
Proof.
  intros H. unfold binary_round_aux.
  pose proof (shr_fexp_nonneg m e l H) as H1.
  destruct (shr_fexp prec emax m e l) as [mrs' e'] eqn:E1. simpl in H1.
  pose proof (shr_fexp_nonneg _ e' loc_Exact
                (round_nearest_even_nonneg _ (loc_of_shr_record mrs') H1)) as H2.
  destruct (shr_fexp prec emax (round_nearest_even _ _) e' loc_Exact)
    as [mrs'' e''] eqn:E2. simpl in H2.
  destruct (shr_m mrs'') as [|q|q]; simpl; try reflexivity; try lia.
  destruct (Z.leb _ _); reflexivity.
Qed.

Lemma binary_round_signo (s : bool) (m : positive) (e : Z) :
  con_signo s (binary_round prec emax s m e).
Proof.
  unfold binary_round. destruct (shl_align _ _ _) as [mz ez].
  apply binary_round_aux_signo. lia.
Qed.

Lemma binary_normalize_no_nan (m e : Z) (sz : bool) :
  binary_normalize prec emax m e sz <> S754_nan.
Proof.
  destruct m as [|p|p]; simpl; try discriminate.
  - pose proof (binary_round_signo false p e) as H.
    destruct (binary_round _ _ _ _ _); simpl in H; try discriminate; tauto.
  - pose proof (binary_round_signo true p e) as H.
    destruct (binary_round _ _ _ _ _); simpl in H; try discriminate; tauto.
Qed.

Lemma SFmul_finitos_signo sx mx ex sy my ey :
  con_signo (xorb sx sy)
    (SF64mul (S754_finite sx mx ex) (S754_finite sy my ey)).
Proof. apply binary_round_aux_signo. lia. Qed.

Lemma SFdiv_finitos_signo sx mx ex sy my ey :
  con_signo (xorb sx sy)
    (SF64div (S754_finite sx mx ex) (S754_finite sy my ey)).
Proof.
  unfold SF64div, SFdiv, SFdiv_core_binary.
  set (s := (_ - _ - _)%Z).
  set (m' := match s with Zpos _ => _ | Z0 => _ | Zneg _ => _ end).
  assert (Hm : (0 <= m')%Z).
  { subst m'. destruct s; try lia. apply Z.shiftl_nonneg. lia. }
  pose proof (Z.div_pos m' (Zpos my) Hm ltac:(lia)) as Hq.
  unfold Z.div in Hq.
  destruct (Z.div_eucl m' (Zpos my)) as [q r]. simpl in Hq.
  apply binary_round_aux_signo, Hq.
Qed.

(** The day-over-day change of two finite, non-zero prices is a number. *)
Lemma pct_no_nan (p q : float) :
  finito_no_nulo p = true -> finito_no_nulo q = true ->
  is_nan (p / q - 1) = false.
Proof.
  rewrite !finito_no_nulo_spec, is_nan_spec, sub_spec, div_spec.
  change (Prim2SF 1) with (S754_finite false 4503599627370496 (-52)).
  destruct (Prim2SF p) as [s|s| |sp mp ep]; try discriminate.
  destruct (Prim2SF q) as [s|s| |sq mq eq]; try discriminate.
  intros _ _.
  pose proof (SFdiv_finitos_signo sp mp ep sq mq eq) as H.
  destruct (SF64div _ _) as [s|s| |s m e]; simpl in H; try tauto;
    try reflexivity.
  unfold SF64sub, SFsub.
  match goal with
  | |- context [binary_normalize ?a ?b ?c ?d ?e] =>
      pose proof (binary_normalize_no_nan c d e) as Hn;
      destruct (binary_normalize a b c d e); try reflexivity; congruence
  end.
Qed.

Lemma prim_100 : Prim2SF 100 = S754_finite false 7036874417766400 (-46).
Proof. reflexivity. Qed.

Lemma prim_2_52 : Prim2SF 0x1p52 = S754_finite false 4503599627370496 0.
Proof. reflexivity. Qed.

Lemma mul_100_no_positivo (x : float) :
  no_positivo x = true -> no_positivo (x * 100) = true.
Proof.
  rewrite !no_positivo_spec, mul_spec, prim_100.
  destruct (Prim2SF x) as [s|s| |s m e]; try destruct s; try discriminate;
    try reflexivity.
  intros _.
  pose proof (SFmul_finitos_signo true m e false 7036874417766400 (-46)) as H.
  destruct (SF64mul _ _) as [s'|s'| |s' m' e']; simpl in H; subst; tauto.
Qed.

Lemma div_100_no_positivo (x : float) :
  no_positivo x = true -> no_positivo (x / 100) = true.
Proof.
  rewrite !no_positivo_spec, div_spec, prim_100.
  destruct (Prim2SF x) as [s|s| |s m e]; try destruct s; try discriminate;
    try reflexivity.
  intros _.
  pose proof (SFdiv_finitos_signo true m e false 7036874417766400 (-46)) as H.
  destruct (SF64div _ _) as [s'|s'| |s' m' e']; simpl in H; subst; tauto.
Qed.

Lemma get_sign_spec (x : float) :
  get_sign x =
  match Prim2SF x with
  | S754_zero s | S754_infinity s | S754_finite s _ _ => s
  | S754_nan => false
  end.
Proof.
  unfold get_sign. rewrite is_zero_spec.
  destruct (Prim2SF x) as [s|s| |s m e] eqn:E.
  - rewrite ltb_spec, div_spec, E.
    change (Prim2SF one) with (S754_finite false 4503599627370496 (-52)).
    destruct s; reflexivity.
  - rewrite ltb_spec, E. destruct s; reflexivity.
  - rewrite ltb_spec, E. reflexivity.
  - rewrite ltb_spec, E. destruct s; reflexivity.
Qed.

Lemma SFsub_finito_no_nan (a : spec_float) sb mb eb :
  a <> S754_nan -> SF64sub a (S754_finite sb mb eb) <> S754_nan.
Proof.
  destruct a as [s|s| |s m e]; simpl; try discriminate; try tauto.
  intros _. apply binary_normalize_no_nan.
Qed.

Lemma SFadd_finitos_no_nan sa ma ea sb mb eb :
  SF64add (S754_finite sa ma ea) (S754_finite sb mb eb) <> S754_nan.
Proof. apply binary_normalize_no_nan. Qed.

(** The magnitude [rint] computes for a number is a number. *)
Lemma magnitud_rint_no_nan (x : float) :
  is_nan x = false -> is_nan (abs x + 0x1p52 - 0x1p52) = false.
Proof.
  rewrite !is_nan_spec, sub_spec, add_spec, abs_spec, prim_2_52.
  destruct (Prim2SF x) as [s|s| |s m e]; try discriminate; try reflexivity.
  intros _.
  pose proof (SFsub_finito_no_nan
                (SF64add (SFabs (S754_finite s m e))
                         (S754_finite false 4503599627370496 0))
                false 4503599627370496 0
                (SFadd_finitos_no_nan false m e false 4503599627370496 0)) as H.
  destruct (SF64sub _ _); try reflexivity. congruence.
Qed.

Lemma magnitud_rint_cero (x : float) :
  is_zero x = true -> abs x + 0x1p52 - 0x1p52 = 0.
Proof.
  rewrite is_zero_spec. intros H.
  assert (E : abs x + 0x1p52 = 0x1p52).
  { apply Prim2SF_inj. rewrite add_spec, abs_spec, prim_2_52.
    destruct (Prim2SF x); try discriminate. reflexivity. }
  rewrite E. reflexivity.
Qed.

Lemma rint_no_positivo (x : float) :
  no_positivo x = true -> no_positivo (rint x) = true.
Proof.
  intros H. unfold rint. destruct (abs x <? 0x1p52); [|exact H].
  destruct (is_zero x) eqn:Z.
  - rewrite (magnitud_rint_cero x Z). unfold copysign.
    destruct (get_sign x); reflexivity.
  - assert (N : is_nan x = false).
    { revert H. rewrite is_nan_spec, no_positivo_spec.
      destruct (Prim2SF x); auto; discriminate. }
    pose proof (magnitud_rint_no_nan x N) as Hm.
    revert H Z Hm. unfold copysign.
    rewrite get_sign_spec, is_zero_spec, !no_positivo_spec, is_nan_spec.
    destruct (Prim2SF x) as [s|s| |s m e]; try destruct s; try discriminate;
      intros _ _; rewrite opp_spec, abs_spec;
      destruct (Prim2SF (abs x + 0x1p52 - 0x1p52)); simpl; auto.
Qed.

Lemma rint_cero (x : float) : is_zero x = true -> is_zero (rint x) = true.
Proof.
  intros Z. unfold rint. destruct (abs x <? 0x1p52); [|exact Z].
  rewrite (magnitud_rint_cero x Z). unfold copysign.
  destruct (get_sign x); reflexivity.
Qed.

Lemma round2_no_positivo (x : float) :
  no_positivo x = true -> no_positivo (round2 x) = true.
Proof.
  intros H. apply div_100_no_positivo, rint_no_positivo, mul_100_no_positivo, H.
Qed.

Lemma round2_nan (x : float) : is_nan x = true -> is_nan (round2 x) = true.
Proof.
  unfold round2. intros H.
  assert (E : is_nan (x * 100) = true).
  { revert H. rewrite !is_nan_spec, mul_spec.
    destruct (Prim2SF x); try discriminate. reflexivity. }
  assert (R : rint (x * 100) = x * 100).
  { unfold rint.
    replace (abs (x * 100) <? 0x1p52) with false; [reflexivity|].
    revert E. rewrite ltb_spec, abs_spec, is_nan_spec.
    destruct (Prim2SF (x * 100)); try discriminate. reflexivity. }
  rewrite R. revert E. rewrite !is_nan_spec, div_spec.
  destruct (Prim2SF (x * 100)); try discriminate. reflexivity.
Qed.

Lemma mul_100_cero (x : float) : is_zero x = true -> is_zero (x * 100) = true.
Proof.
  rewrite !is_zero_spec, mul_spec, prim_100.
  destruct (Prim2SF x); try discriminate. reflexivity.
Qed.

Lemma div_100_cero (x : float) : is_zero x = true -> is_zero (x / 100) = true.
Proof.
  rewrite !is_zero_spec, div_spec, prim_100.
  destruct (Prim2SF x); try discriminate. reflexivity.
Qed.

Lemma round2_cero (x : float) : is_zero x = true -> is_zero (round2 x) = true.
Proof. intros H. apply div_100_cero, rint_cero, mul_100_cero, H. Qed.

Lemma cero_o_nan_spec (x : float) :
  cero_o_nan x =
  match Prim2SF x with S754_zero _ | S754_nan => true | _ => false end.
Proof.
  unfold cero_o_nan. rewrite is_zero_spec, is_nan_spec.
  destruct (Prim2SF x); reflexivity.
Qed.

Lemma sub_cero_o_nan (x m : float) :
  is_zero x = true -> cero_o_nan m = true -> cero_o_nan (x - m) = true.
Proof.
  rewrite is_zero_spec, !cero_o_nan_spec, sub_spec.
  destruct (Prim2SF x) as [s|s| |s k e]; try discriminate.
  destruct (Prim2SF m) as [s'|s'| |s' k' e']; try discriminate;
    destruct s; try destruct s'; reflexivity.
Qed.

Lemma mul_cero_o_nan (a d : float) :
  cero_o_nan d = true -> cero_o_nan (a * d) = true.
Proof.
  rewrite !cero_o_nan_spec, mul_spec.
  destruct (Prim2SF d) as [s|s| |s k e]; try discriminate;
    destruct (Prim2SF a) as [s'|s'| |s' k' e']; reflexivity.
Qed.

Lemma add_cero_o_nan (a b : float) :
  cero_o_nan a = true -> cero_o_nan b = true -> cero_o_nan (a + b) = true.
Proof.
  rewrite !cero_o_nan_spec, add_spec.
  destruct (Prim2SF a) as [s|s| |s k e]; try discriminate;
    destruct (Prim2SF b) as [s'|s'| |s' k' e']; try discriminate;
    try destruct s; try destruct s'; reflexivity.
Qed.

End Binary64.

(** ** Rows kept by [dropna] *)

Section Filas.

Context {I : Type}.

Lemma length_map2 {A B C} (f : A -> B -> C) (l : list A) (l' : list B) :
  length (map2 f l l') = Nat.min (length l) (length l').
Proof.
  revert l'; induction l as [|x t IH]; intros [|y t']; simpl; auto.
Qed.

Lemma length_pct_desde (prev : float) (l : Serie) :
  length (pct_desde prev l) = length l.
Proof. revert prev; induction l; simpl; auto. Qed.

Lemma length_pct_change_serie (l : Serie) :
  length (pct_change_serie l) = length l.
Proof. destruct l; simpl; auto using length_pct_desde. Qed.

Lemma filtrar_length_le {A} (m : list bool) (l : list A) :
  (length (filtrar m l) <= length l)%nat.
Proof.
  revert l; induction m as [|b m IH]; intros [|x l]; simpl; try lia.
  specialize (IH l). destruct b; simpl; lia.
Qed.

Lemma filtrar_repeat_true {A} (l : list A) :
  filtrar (repeat true (length l)) l = l.
Proof. induction l; simpl; congruence. Qed.

Lemma forallb_filtrar_andb {A} (p : A -> bool) (x m : list bool) (c : list A) :
  forallb p (filtrar m c) = true ->
  forallb p (filtrar (map2 andb x m) c) = true.
Proof.
  revert x c; induction m as [|b m IH]; intros [|a x] [|y c]; simpl; auto.
  destruct a, b; simpl; auto.
  - rewrite andb_true_iff. intros [-> H]. simpl. auto.
  - rewrite andb_true_iff. intros [_ H]. auto.
Qed.

Lemma forallb_filtrar_notna (m : list bool) (c : Serie) :
  forallb notna (filtrar (map2 andb (map notna c) m) c) = true.
Proof.
  revert m; induction c as [|y c IH]; intros [|b m]; simpl; auto.
  destruct (notna y) eqn:E, b; simpl; auto. rewrite E. simpl. auto.
Qed.

Lemma forallb_map_comp {A B} (p : B -> bool) (f : A -> B) (l : list A) :
  forallb p (map f l) = forallb (fun x => p (f x)) l.
Proof. induction l; simpl; congruence. Qed.

Lemma filas_completas_notna (init : list bool) (cols : list (string * Serie)) :
  forallb (fun c =>
    forallb notna
      (filtrar (fold_right (fun c m => map2 andb (map notna (snd c)) m) init cols)
               (snd c))) cols = true.
Proof.
  induction cols as [|c cols IH]; simpl; auto.
  rewrite forallb_filtrar_notna. simpl.
  rewrite forallb_forall in IH |- *. intros d Hd.
  apply forallb_filtrar_andb, IH, Hd.
Qed.

(** What [dropna] returns has no missing value. *)
Lemma dropna_sin_faltantes (df : DataFrame I) :
  sin_faltantes (dropna df) = true.
Proof.
  unfold sin_faltantes, dropna, filas_completas. simpl.
  rewrite forallb_map_comp. simpl. apply filas_completas_notna.
Qed.

Lemma mascara_pct_length (n : nat) (cols : list (string * Serie)) :
  forallb (fun c => (length (snd c) =? n)%nat) cols = true ->
  length (mascara_pct n cols) = n.
Proof.
  unfold mascara_pct.
  induction cols as [|c cols IH]; simpl; intros H.
  - apply repeat_length.
  - apply andb_true_iff in H as [Hc H]. apply Nat.eqb_eq in Hc.
    rewrite length_map2, length_map, length_pct_change_serie, Hc, (IH H).
    apply Nat.min_id.
Qed.

(** With at least one instrument the first row of the changes is dropped. *)
Lemma mascara_pct_primera (k : nat) (c : string * Serie)
    (cols : list (string * Serie)) :
  forallb (fun c => (length (snd c) =? S k)%nat) (c :: cols) = true ->
  exists m, mascara_pct (S k) (c :: cols) = false :: m /\ length m = k.
Proof.
  intros H. pose proof (mascara_pct_length _ _ H) as HL.
  simpl in H. apply andb_true_iff in H as [Hc H]. apply Nat.eqb_eq in Hc.
  pose proof (mascara_pct_length _ _ H) as HR.
  unfold mascara_pct in *. simpl in *.
  destruct (snd c) as [|x t]; [discriminate|].
  destruct (fold_right _ _ _) as [|b mr]; [discriminate|].
  simpl in *. eexists; split; [reflexivity|]. simpl in HL. lia.
Qed.

Lemma pct_desde_notna (prev : float) (t : Serie) :
  finito_no_nulo prev = true -> forallb finito_no_nulo t = true ->
  map notna (pct_desde prev t) = repeat true (length t).
Proof.
  revert prev; induction t as [|x t IH]; simpl; intros prev Hp H; auto.
  apply andb_true_iff in H as [Hx H].
  unfold notna at 1. rewrite (pct_no_nan x prev Hx Hp). simpl.
  f_equal. apply IH; assumption.
Qed.

Lemma map2_andb_repeat (k : nat) :
  map2 andb (repeat true k) (repeat true k) = repeat true k.
Proof. induction k; simpl; congruence. Qed.

(** With finite, non-zero prices only the first row is dropped. *)
Lemma mascara_pct_finitos (k : nat) (c : string * Serie)
    (cols : list (string * Serie)) :
  forallb (fun c => (length (snd c) =? S k)%nat) (c :: cols) = true ->
  forallb (fun c => forallb finito_no_nulo (snd c)) (c :: cols) = true ->
  mascara_pct (S k) (c :: cols) = false :: repeat true k.
Proof.
  revert c; induction cols as [|d cols IH]; intros c HL HF.
  - simpl in HL, HF. rewrite andb_true_r in HL, HF. apply Nat.eqb_eq in HL.
    unfold mascara_pct. simpl.
    destruct (snd c) as [|x t]; [discriminate|]. simpl in *.
    apply andb_true_iff in HF as [Hx Ht].
    rewrite (pct_desde_notna x t Hx Ht).
    injection HL as ->. rewrite map2_andb_repeat. reflexivity.
  - change (forallb ?f (c :: d :: cols)) with (f c && forallb f (d :: cols))
      in HL, HF.
    apply andb_true_iff in HL as [Hc HL]. apply andb_true_iff in HF as [Hf HF].
    specialize (IH d HL HF). apply Nat.eqb_eq in Hc.
    unfold mascara_pct in *. simpl in *. rewrite IH.
    destruct (snd c) as [|x t]; [discriminate|]. simpl in *.
    apply andb_true_iff in Hf as [Hx Ht].
    rewrite (pct_desde_notna x t Hx Ht).
    injection Hc as ->. rewrite map2_andb_repeat. reflexivity.
Qed.


End Filas.

(** ** The returns table *)

Section Retornos.

(** The function raises only on a table without rows. *)
Lemma calcular_metricas_ok (datos : DataFrame Z) :
  (1 <= nrows datos)%nat ->
  calcular_metricas datos =
  Ok (round_df (metricas_crudas datos), dropna (pct_change datos)).
Proof.
  unfold calcular_metricas, iloc_primera, iloc_ultima, nrows.
  destruct (index datos); simpl; [lia | reflexivity].
Qed.

Lemma calcular_metricas_inv (datos : DataFrame Z) m r :
  calcular_metricas datos = Ok (m, r) ->
  (1 <= nrows datos)%nat /\ r = dropna (pct_change datos) /\
  m = round_df (metricas_crudas datos).
Proof.
  unfold calcular_metricas, iloc_primera, iloc_ultima, nrows.
  destruct (index datos); simpl; [discriminate|].
  intros H. injection H as <- <-. repeat split. lia.
Qed.




End Retornos.

(** On a table with rows the function returns; name what it returns. *)
Ltac tabla_devuelta Hn :=
  eexists _, _; split; [apply calcular_metricas_ok, Hn|].

(** ** Reading the metrics table *)

Section Lectura.

Lemma buscar_map_snd {V W} (h : V -> W) (k : string) (l : list (string * V)) :
  buscar k (map (fun c => (fst c, h (snd c))) l) = option_map h (buscar k l).
Proof.
  induction l as [|[k' v] l IH]; simpl; auto.
  destruct (String.eqb k k'); auto.
Qed.

Lemma buscar_combine_agg {V W} (g : V -> W) (t : string) (cols : list (string * V)) :
  buscar t (combine (map fst cols) (map (fun c => g (snd c)) cols))
  = option_map g (buscar t cols).
Proof.
  induction cols as [|[k v] cols IH]; simpl; auto.
  destruct (String.eqb t k); auto.
Qed.

Lemma buscar_combine_map {V W} (h : V -> W) (t : string) (idx : list string)
    (s : list V) :
  buscar t (combine idx (map h s)) = option_map h (buscar t (combine idx s)).
Proof.
  revert s; induction idx as [|k idx IH]; intros [|v s]; simpl; auto.
  destruct (String.eqb t k); auto.
Qed.

Lemma nombres_dropna_pct (datos : DataFrame Z) :
  nombres (dropna (pct_change datos)) = nombres datos.
Proof.
  unfold nombres, dropna, pct_change, por_columna. simpl.
  rewrite !map_map. simpl. reflexivity.
Qed.

(** Rounding the table rounds the value read at every cell. *)
Lemma loc_round_df (df : DataFrame string) (fila columna : string) :
  loc (round_df df) fila columna = option_map round2 (loc df fila columna).
Proof.
  unfold loc, round_df, por_columna. simpl.
  rewrite (buscar_map_snd (map round2)).
  destruct (buscar columna (columns df)); simpl; auto.
  apply buscar_combine_map.
Qed.

(** A column that is a reduction [f] of the returns holds, in row [t], the
    reduction of instrument [t]'s returns. *)
Lemma loc_agg (datos retornos : DataFrame Z) (primera ultima : Serie)
    (columna t : string) (f : Serie -> float) :
  nombres retornos = nombres datos ->
  buscar columna (columns (metricas_sin_redondear datos retornos primera ultima))
  = Some (agg f retornos) ->
  loc (metricas_sin_redondear datos retornos primera ultima) t columna
  = option_map f (buscar t (columns retornos)).
Proof.
  intros Hn Hc. unfold loc. rewrite Hc.
  change (index (metricas_sin_redondear datos retornos primera ultima))
    with (nombres datos).
  rewrite <- Hn. apply buscar_combine_agg.
Qed.

End Lectura.

(** ** Volatility, Sortino ratio and rounding *)

Section Metricas.

(** The value of a returns-based metric in the returned table. *)
Lemma loc_metrica (datos : DataFrame Z) (columna t : string)
    (f : Serie -> float) :
  buscar columna (columns (metricas_crudas datos))
  = Some (agg f (dropna (pct_change datos))) ->
  loc (metricas_crudas datos) t columna
  = option_map f (buscar t (columns (dropna (pct_change datos)))) /\
  loc (round_df (metricas_crudas datos)) t columna
  = option_map (fun r => round2 (f r))
      (buscar t (columns (dropna (pct_change datos)))).
Proof.
  intros Hc.
  assert (H : loc (metricas_crudas datos) t columna
              = option_map f (buscar t (columns (dropna (pct_change datos))))).
  { apply loc_agg; [apply nombres_dropna_pct | exact Hc]. }
  split; [exact H|].
  rewrite loc_round_df, H.
  destruct (buscar t _); reflexivity.
Qed.




Lemma ltb_notna (x y : float) : (x <? y) = true -> notna x = true.
Proof.
  unfold notna. rewrite ltb_spec, is_nan_spec.
  destruct (Prim2SF x); simpl; auto; discriminate.
Qed.

(** Masking the non-negative returns with NaN and then skipping NaN leaves
    exactly the strictly negative returns. *)
Lemma validos_solo_negativos (r : Serie) :
  validos (solo_negativos r) = filter (fun x => x <? 0) r.
Proof.
  unfold validos, solo_negativos.
  induction r as [|x r IH]; simpl; auto.
  destruct (x <? 0) eqn:E; simpl.
  - rewrite (ltb_notna _ _ E), IH. reflexivity.
  - exact IH.
Qed.

Lemma validos_idem (l : Serie) : validos (validos l) = validos l.
Proof.
  unfold validos. induction l as [|x l IH]; simpl; auto.
  destruct (notna x) eqn:E; simpl; rewrite ?E, IH; reflexivity.
Qed.

Lemma std_validos (l : Serie) : std (validos l) = std l.
Proof. unfold std, var. rewrite validos_idem. reflexivity. Qed.

Lemma sortino_es_segun_spec (r : Serie) : sortino r = sortino_segun_spec r.
Proof.
  unfold sortino, sortino_segun_spec.
  rewrite <- (std_validos (solo_negativos r)), validos_solo_negativos.
  reflexivity.
Qed.

(** C7.  The Sortino ratio the function computes for an instrument is the
    mean of all its returns divided by the standard deviation of its strictly
    negative returns only, times the square root of 252; the returned table
    holds that value rounded to two decimals. *)
Theorem sortino_desviacion_negativa (datos : DataFrame Z) :
  (1 <= nrows datos)%nat ->
  exists metricas retornos,
    calcular_metricas datos = Ok (metricas, retornos) /\
    metricas = round_df (metricas_crudas datos) /\
    forall t r, buscar t (columns retornos) = Some r ->
      loc (metricas_crudas datos) t "Sortino" = Some (sortino_segun_spec r) /\
      loc metricas t "Sortino" = Some (round2 (sortino_segun_spec r)).
Proof.
  intros Hn. tabla_devuelta Hn.
  split; [reflexivity|]. intros t r Hr.
  destruct (loc_metrica datos "Sortino" t sortino eq_refl) as [-> ->].
  rewrite Hr. simpl. rewrite sortino_es_segun_spec. split; reflexivity.
Qed.

Lemma sortino_desviacion_negativa_witness :
  (exists metricas retornos,
    calcular_metricas precios_100_98_99_97_100 = Ok (metricas, retornos) /\
    metricas = round_df (metricas_crudas precios_100_98_99_97_100) /\
    forall t r, buscar t (columns retornos) = Some r ->
      loc (metricas_crudas precios_100_98_99_97_100) t "Sortino"
      = Some (sortino_segun_spec r) /\
      loc metricas t "Sortino" = Some (round2 (sortino_segun_spec r))) /\
  exists v,
    loc (round_df (metricas_crudas precios_100_98_99_97_100)) "A" "Sortino"
    = Some v /\ is_finite v = true.
Proof.
  split.
  - apply (sortino_desviacion_negativa precios_100_98_99_97_100).
    vm_compute; lia.
  - eexists. split; vm_compute; reflexivity.
Defined.



(** C4.  For the closes 100, 110, 121 the function returns: both returns
    are 0.10 (to sixteen digits, and equal to each other), the total return
    is 21, the daily volatility is 0 and the Sharpe ratio is the non-finite
    marker [inf]. *)
Theorem ejemplo_100_110_121 :
  exists metricas retornos r,
    calcular_metricas precios_100_110_121 = Ok (metricas, retornos) /\
    index retornos = [2; 3]%Z /\
    columns retornos = [("A"%string, [r; r])] /\
    (abs (r - 1 / 10) <? 1 / 1000000000000000) = true /\
    round2 r = 10 / 100 /\
    loc metricas "A" "Rendimiento (%)" = Some 21 /\
    loc metricas "A" "Volatilidad Diaria (%)" = Some 0 /\
    std [r; r] = 0 /\
    loc metricas "A" "Sharpe" = Some infinity /\
    is_finite infinity = false.
Proof.
  exists (round_df (metricas_crudas precios_100_110_121)),
         (dropna (pct_change precios_100_110_121)), (110 / 100 - 1).
  repeat split; vm_compute; reflexivity.
Qed.

End Metricas.

(** ** Maximum drawdown *)

Section Drawdown.

(** The minimum of a column *)

Lemma min_paso_no_positivo (a y : float) :
  no_positivo a = true -> notna y = true ->
  no_positivo (if a <? y then a else y) = true.
Proof.
  intros Ha Hy. destruct (a <? y) eqn:E; [exact Ha|].
  revert Ha Hy E. unfold notna.
  rewrite !no_positivo_spec, is_nan_spec, ltb_spec.
  destruct (Prim2SF a) as [s|s| |s m e]; try destruct s; try discriminate;
    destruct (Prim2SF y) as [s'|s'| |s' m' e']; try destruct s';
    try discriminate; reflexivity.
Qed.

Lemma min_paso_cero (a y : float) :
  is_zero a = true -> is_zero y = true ->
  is_zero (if a <? y then a else y) = true.
Proof. intros Ha Hy. destruct (a <? y); assumption. Qed.

Lemma fold_min_no_positivo (t : Serie) (a : float) :
  no_positivo a = true -> forallb notna t = true ->
  no_positivo (fold_left (fun a y => if a <? y then a else y) t a) = true.
Proof.
  revert a; induction t as [|y t IH]; simpl; intros a Ha H; auto.
  apply andb_true_iff in H as [Hy H].
  apply IH; auto using min_paso_no_positivo.
Qed.

Lemma fold_min_cero (t : Serie) (a : float) :
  is_zero a = true -> forallb is_zero t = true ->
  is_zero (fold_left (fun a y => if a <? y then a else y) t a) = true.
Proof.
  revert a; induction t as [|y t IH]; simpl; intros a Ha H; auto.
  apply andb_true_iff in H as [Hy H].
  apply IH; auto using min_paso_cero.
Qed.

Lemma validos_notna (l : Serie) : forallb notna (validos l) = true.
Proof.
  unfold validos. induction l as [|x l IH]; simpl; auto.
  destruct (notna x) eqn:E; simpl; rewrite ?E; auto.
Qed.

Lemma is_zero_notna (x : float) : is_zero x = true -> notna x = true.
Proof.
  unfold notna. rewrite is_zero_spec, is_nan_spec.
  destruct (Prim2SF x); auto; discriminate.
Qed.

Lemma is_zero_no_positivo (x : float) : is_zero x = true -> no_positivo x = true.
Proof.
  rewrite is_zero_spec, no_positivo_spec.
  destruct (Prim2SF x); auto; discriminate.
Qed.

(** A column whose first value is a zero has a minimum that is at most 0. *)
Lemma min_no_positivo (z : float) (t : Serie) :
  is_zero z = true -> no_positivo (min (z :: t)) = true.
Proof.
  intros Hz. unfold min, validos. simpl.
  rewrite (is_zero_notna z Hz).
  apply fold_min_no_positivo; [apply is_zero_no_positivo, Hz|].
  apply validos_notna.
Qed.

Lemma validos_todo_nan (l : Serie) : forallb is_nan l = true -> validos l = [].
Proof.
  unfold validos, notna. induction l as [|x l IH]; simpl; auto.
  intros H. apply andb_true_iff in H as [-> H]. simpl. auto.
Qed.

Lemma validos_ceros (l : Serie) : forallb is_zero l = true -> validos l = l.
Proof.
  unfold validos. induction l as [|x l IH]; simpl; auto.
  intros H. apply andb_true_iff in H as [Hx H].
  rewrite (is_zero_notna x Hx), (IH H). reflexivity.
Qed.

(** A column of zeros has a zero as its minimum. *)
Lemma min_ceros (z : float) (t : Serie) :
  forallb is_zero (z :: t) = true -> is_zero (min (z :: t)) = true.
Proof.
  intros H. unfold min. rewrite (validos_ceros _ H).
  simpl in H. apply andb_true_iff in H as [Hz H].
  apply fold_min_cero; assumption.
Qed.

(** Drawdown *)

Lemma especial_drawdown (c m : float) :
  especial c m -> is_nan ((c - m) / m) = true.
Proof.
  unfold especial. rewrite is_nan_spec, div_spec, sub_spec.
  destruct (Prim2SF c) as [s|s| |s k e]; try destruct s;
    destruct (Prim2SF m) as [s'|s'| |s' k' e']; try destruct s';
    simpl; tauto.
Qed.

Lemma especial_paso (c m x : float) :
  especial c m -> especial (c * x) (max_paso m (c * x)).
Proof.
  unfold max_paso.
  destruct (is_nan (c * x)) eqn:N1;
    [|destruct (is_nan m) eqn:N2; [|destruct (m <=? c * x)]];
    revert N1; try revert N2; unfold especial;
    rewrite ?is_nan_spec, mul_spec;
    destruct (Prim2SF c) as [s|s| |s k e];
    destruct (Prim2SF m) as [s'|s'| |s' k' e']; try tauto;
    destruct (Prim2SF x) as [s''|s''| |s'' k'' e'']; simpl; try tauto;
    try discriminate.
Qed.

Lemma especial_cola (l : Serie) (c m : float) :
  especial c m ->
  forallb is_nan
    (map2 (fun c m => (c - m) / m) (cumprod_desde c l)
          (expanding_max_desde m (cumprod_desde c l))) = true.
Proof.
  revert c m; induction l as [|x l IH]; intros c m H; simpl; auto.
  pose proof (especial_paso c m x H) as H'.
  rewrite (especial_drawdown _ _ H'). simpl. apply IH, H'.
Qed.

Lemma sub_diag_finito (c : float) :
  finito_no_nulo c = true -> is_zero ((c - c) / c) = true.
Proof.
  rewrite finito_no_nulo_spec, is_zero_spec, div_spec, sub_spec.
  destruct (Prim2SF c) as [s|s| |s k e]; try discriminate. intros _.
  unfold SF64sub, SFsub. rewrite Z.sub_diag. reflexivity.
Qed.

Lemma drawdown_cons (x : float) (r : Serie) :
  drawdown (x :: r) =
  let c := 1 + x in
  let m := if is_nan c then nan else c in
  (c - m) / m ::
  map2 (fun c m => (c - m) / m) (cumprod_desde c (map (fun x => 1 + x) r))
       (expanding_max_desde m (cumprod_desde c (map (fun x => 1 + x) r))).
Proof. reflexivity. Qed.

Lemma finito_no_nulo_notna (c : float) :
  finito_no_nulo c = true -> is_nan c = false.
Proof.
  rewrite finito_no_nulo_spec, is_nan_spec.
  destruct (Prim2SF c); auto; discriminate.
Qed.

(** A path that starts at a finite, non-zero value has a first drawdown of
    zero. *)
Lemma drawdown_inicia_en_cero (r : Serie) :
  finito_no_nulo (hd nan (cumulative r)) = true ->
  exists z t, drawdown r = z :: t /\ is_zero z = true.
Proof.
  destruct r as [|x r]; [discriminate|].
  rewrite drawdown_cons. unfold cumulative. simpl. intros F.
  rewrite (finito_no_nulo_notna _ F).
  eexists _, _. split; [reflexivity|]. apply sub_diag_finito, F.
Qed.

(** Any other path has no drawdown at all. *)
Lemma drawdown_todo_nan (r : Serie) :
  finito_no_nulo (hd nan (cumulative r)) = false ->
  forallb is_nan (drawdown r) = true.
Proof.
  destruct r as [|x r]; [reflexivity|].
  rewrite drawdown_cons. unfold cumulative. simpl. intros F.
  set (c := 1 + x) in *.
  assert (E : especial c (if is_nan c then nan else c)).
  { revert F. unfold especial.
    rewrite finito_no_nulo_spec, is_nan_spec.
    destruct (Prim2SF c) eqn:E; try discriminate; intros _;
      try rewrite E; exact I. }
  rewrite (especial_drawdown _ _ E). simpl. apply especial_cola, E.
Qed.

Lemma expanding_max_no_decreciente (l : Serie) (c0 : float) :
  forallb notna (c0 :: l) = true -> no_decreciente (c0 :: l) = true ->
  expanding_max_desde c0 l = l.
Proof.
  revert c0; induction l as [|c l IH]; intros c0 N M; auto.
  change (no_decreciente (c0 :: c :: l))
    with ((c0 <=? c) && no_decreciente (c :: l)) in M.
  apply andb_true_iff in M as [L M].
  change (forallb notna (c0 :: c :: l))
    with (notna c0 && forallb notna (c :: l)) in N.
  apply andb_true_iff in N as [N0 N].
  pose proof N as N'. simpl in N'. apply andb_true_iff in N' as [Nc _].
  unfold notna in N0, Nc. apply negb_true_iff in N0, Nc.
  simpl. unfold max_paso. rewrite Nc, N0, L. f_equal. apply IH; assumption.
Qed.

Lemma map2_diag {A B} (f : A -> A -> B) (l : list A) :
  map2 f l l = map (fun x => f x x) l.
Proof. induction l; simpl; congruence. Qed.

Lemma forallb_finito_notna (l : Serie) :
  forallb finito_no_nulo l = true -> forallb notna l = true.
Proof.
  induction l as [|x l IH]; simpl; auto.
  intros H. apply andb_true_iff in H as [Hx H].
  unfold notna at 1. rewrite (finito_no_nulo_notna x Hx). simpl. auto.
Qed.

(** On a non-decreasing path of finite, non-zero values every drawdown is a
    zero. *)
Lemma drawdown_no_decreciente (r : Serie) :
  forallb finito_no_nulo (cumulative r) = true ->
  no_decreciente (cumulative r) = true ->
  forallb is_zero (drawdown r) = true.
Proof.
  intros F M. unfold drawdown, running_max, expanding_max.
  destruct (cumulative r) as [|c l] eqn:E; [reflexivity|].
  pose proof (forallb_finito_notna _ F) as N.
  assert (R : expanding_max_desde nan (c :: l) = c :: l).
  { pose proof N as N'. simpl in N'. apply andb_true_iff in N' as [Nc _].
    unfold notna in Nc. apply negb_true_iff in Nc.
    simpl. unfold max_paso. rewrite Nc. simpl. f_equal.
    apply expanding_max_no_decreciente; assumption. }
  rewrite R, map2_diag, forallb_map_comp.
  rewrite forallb_forall in F |- *. intros x Hx.
  apply sub_diag_finito, F, Hx.
Qed.

(** The value shown as maximum drawdown for a series of returns. *)
Lemma max_drawdown_signo (r : Serie) :
  let v := round2 (min (drawdown r) * 100) in
  (if finito_no_nulo (hd nan (cumulative r))
   then (v <=? 0) = true else is_nan v = true) /\
  (r <> [] -> forallb finito_no_nulo (cumulative r) = true ->
   no_decreciente (cumulative r) = true -> (v =? 0) = true).
Proof.
  intros v. split.
  - destruct (finito_no_nulo (hd nan (cumulative r))) eqn:F.
    + destruct (drawdown_inicia_en_cero r F) as [z [t [E Hz]]].
      subst v. rewrite E.
      apply round2_no_positivo, mul_100_no_positivo, min_no_positivo, Hz.
    + subst v. unfold min.
      rewrite (validos_todo_nan _ (drawdown_todo_nan r F)).
      apply round2_nan. reflexivity.
  - intros Hr F M. pose proof (drawdown_no_decreciente r F M) as Z.
    assert (exists z t, drawdown r = z :: t) as [z [t E]].
    { destruct r as [|x r]; [congruence|]. rewrite drawdown_cons.
      eexists _, _. reflexivity. }
    rewrite E in Z. subst v. rewrite E.
    apply round2_cero, mul_100_cero, min_ceros, Z.
Qed.




End Drawdown.

(** ** Data acquisition *)

Section Descarga.

Variable yf : string -> Respuesta.

(** A fetch fails in exactly three ways: the call raises, the result is
    empty, or the result has no [Close] column. *)
Lemma falla_casos (t : string) :
  falla yf t = true <->
  (exists e, yf t = Lanza e) \/
  (exists df, yf t = Devuelve df /\
              (empty df = true \/ buscar "Close" (columns df) = None)).
Proof.
  unfold falla, obtener. destruct (yf t) as [e|df].
  - split; [eauto|reflexivity].
  - destruct (empty df) eqn:E; simpl.
    + split; [eauto|reflexivity].
    + destruct (buscar "Close" (columns df)) eqn:B.
      * split; [discriminate|].
        intros [[e H]|[df' [H [H'|H']]]]; try discriminate;
          injection H as <-; congruence.
      * split; [eauto|reflexivity].
Qed.

Lemma sin_repetidos_NoDup (l : list string) :
  sin_repetidos l = true <-> NoDup l.
Proof.
  induction l as [|x l IH]; simpl.
  - split; [constructor|reflexivity].
  - rewrite andb_true_iff, negb_true_iff, IH. split.
    + intros [H N]. constructor; [|exact N]. intros Hin.
      assert (E : existsb (String.eqb x) l = true).
      { apply existsb_exists. exists x. split; [exact Hin|].
        apply String.eqb_refl. }
      congruence.
    + intros H. inversion H as [|? ? Hn N]; subst. split; [|exact N].
      destruct (existsb (String.eqb x) l) eqn:E; [|reflexivity].
      apply existsb_exists in E as [y [Hy Hxy]].
      apply String.eqb_eq in Hxy. subst. contradiction.
Qed.

Lemma nombres_poner (k : string) (v : Serie) (cols : list (string * Serie)) :
  ~ In k (map fst cols) -> map fst (poner k v cols) = map fst cols ++ [k].
Proof.
  induction cols as [|[k' v'] cols IH]; simpl; intros H; auto.
  destruct (String.eqb k k') eqn:E.
  - apply String.eqb_eq in E. subst. tauto.
  - simpl. f_equal. apply IH. tauto.
Qed.

(** Assigning a new column appends its name and keeps the others. *)
Lemma nombres_asignar (datos : DataFrame Z) (t : string) (s_idx : list Z)
    (s : Serie) :
  ~ In t (nombres datos) ->
  nombres (asignar datos t s_idx s) = nombres datos ++ [t].
Proof.
  unfold nombres, asignar. intros H.
  destruct (index datos); simpl.
  - rewrite nombres_poner; rewrite map_map; simpl; auto.
  - apply nombres_poner, H.
Qed.

(** The loop of [descargar_datos], from any state: failing tickers add their
    warning, the others add their column, in the order requested. *)
Lemma descargar_bucle (tickers : list string) (datos : DataFrame Z)
    (errores : list string) :
  NoDup (nombres datos ++ tickers) ->
  nombres (fst (fold_left (descargar_paso yf) tickers (datos, errores)))
  = nombres datos ++ filter (fun t => negb (falla yf t)) tickers /\
  snd (fold_left (descargar_paso yf) tickers (datos, errores))
  = errores ++ map (aviso_de yf) (filter (falla yf) tickers).
Proof.
  revert datos errores; induction tickers as [|t tickers IH];
    intros datos errores N; simpl.
  - rewrite !app_nil_r. split; reflexivity.
  - unfold falla, aviso_de.
    destruct (obtener yf t) as [[s_idx close]|aviso] eqn:E; simpl.
    + assert (Hn : ~ In t (nombres datos)).
      { intros Hin. apply NoDup_remove_2 in N. apply N.
        apply in_or_app. left. exact Hin. }
      destruct (IH (asignar datos t s_idx close) errores) as [H1 H2].
      { rewrite nombres_asignar, <- app_assoc by exact Hn. exact N. }
      rewrite H1, H2, nombres_asignar, <- app_assoc by exact Hn.
      split; reflexivity.
    + destruct (IH datos (errores ++ [aviso])) as [H1 H2].
      { apply NoDup_remove_1 in N. exact N. }
      rewrite H1, H2, <- app_assoc. unfold aviso_de. rewrite E.
      split; reflexivity.
Qed.

Lemma ensamblar_nombres_y_avisos (tickers : list string) :
  sin_repetidos tickers = true ->
  nombres (fst (ensamblar yf tickers))
  = filter (fun t => negb (falla yf t)) tickers /\
  snd (ensamblar yf tickers) = map (aviso_de yf) (filter (falla yf) tickers).
Proof.
  intros H. apply sin_repetidos_NoDup in H.
  apply (descargar_bucle tickers (mkDF [] []) []). exact H.
Qed.

Lemma filter_particion {A} (p : A -> bool) (l : list A) :
  (length (filter (fun x => negb (p x)) l) + length (filter p l)
   = length l)%nat.
Proof.
  induction l as [|x l IH]; simpl; auto.
  destruct (p x); simpl; lia.
Qed.

Lemma descargar_datos_ensamblar (tickers : list string) :
  descargar_datos yf tickers
  = (dropna (fst (ensamblar yf tickers)), snd (ensamblar yf tickers)).
Proof.
  unfold descargar_datos. destruct (ensamblar yf tickers). reflexivity.
Qed.

Lemma nombres_dropna {I} (df : DataFrame I) : nombres (dropna df) = nombres df.
Proof. unfold nombres, dropna. simpl. rewrite map_map. reflexivity. Qed.

Lemma aviso_de_ticker (t : string) :
  falla yf t = true ->
  exists motivo, aviso_de yf t = (t ++ ": " ++ motivo)%string.
Proof.
  unfold falla, aviso_de, obtener. destruct (yf t) as [e|df].
  - intros _. eexists. reflexivity.
  - destruct (negb (empty df)); [|intros _; eexists; reflexivity].
    destruct (buscar "Close" (columns df));
      [discriminate | intros _; eexists; reflexivity].
Qed.

(** C10.  In the table assembled by the download loop, before incomplete
    rows are dropped, each of the distinct requested tickers gives exactly
    one thing: a column under its name when its fetch succeeds, a warning
    when it fails; columns and warnings add up to the number of tickers. *)
Theorem cada_ticker_columna_o_aviso (tickers : list string) :
  sin_repetidos tickers = true ->
  let datos := fst (ensamblar yf tickers) in
  let errores := snd (ensamblar yf tickers) in
  nombres datos = filter (fun t => negb (falla yf t)) tickers /\
  errores = map (aviso_de yf) (filter (falla yf) tickers) /\
  NoDup (nombres datos) /\
  (forall t, In t tickers ->
     (In t (nombres datos) /\ falla yf t = false) \/
     (~ In t (nombres datos) /\ falla yf t = true /\
      In (aviso_de yf t) errores)) /\
  (ncols datos + length errores = length tickers)%nat.
Proof.
  intros H. destruct (ensamblar_nombres_y_avisos tickers H) as [Hn He].
  cbv zeta. rewrite He. unfold ncols.
  replace (length (columns (fst (ensamblar yf tickers))))
    with (length (nombres (fst (ensamblar yf tickers))))
    by apply length_map.
  rewrite Hn. repeat split.
  - apply NoDup_filter, sin_repetidos_NoDup, H.
  - intros t Ht. destruct (falla yf t) eqn:F.
    + right. repeat split.
      * rewrite filter_In, F. intros [_ ?]. discriminate.
      * apply in_map, filter_In. auto.
    + left. split; [|reflexivity]. apply filter_In. rewrite F. auto.
  - rewrite length_map. apply filter_particion.
Qed.

(** C5.  A ticker whose fetch fails (exception, empty result or result
    without a [Close] column) leaves a warning and no column; the tickers
    that do not fail are all in the table returned, whatever their position
    in the request.  With three tickers of which exactly one fails, the table
    has two columns and one warning is recorded. *)
Theorem fallo_por_ticker_no_interrumpe (tickers : list string) :
  sin_repetidos tickers = true ->
  let datos := fst (descargar_datos yf tickers) in
  let avisos := snd (descargar_datos yf tickers) in
  (forall t, falla yf t = true <->
     (exists e, yf t = Lanza e) \/
     (exists df, yf t = Devuelve df /\
                 (empty df = true \/ buscar "Close" (columns df) = None))) /\
  (forall t, In t tickers -> falla yf t = true ->
     In (aviso_de yf t) avisos /\ ~ In t (nombres datos) /\
     exists motivo, aviso_de yf t = (t ++ ": " ++ motivo)%string) /\
  (forall t, In t tickers -> falla yf t = false -> In t (nombres datos)) /\
  ncols datos = length (filter (fun t => negb (falla yf t)) tickers) /\
  length avisos = length (filter (falla yf) tickers) /\
  (length tickers = 3%nat -> length (filter (falla yf) tickers) = 1%nat ->
   ncols datos = 2%nat /\ length avisos = 1%nat).
Proof.
  intros H. cbv zeta. rewrite descargar_datos_ensamblar. simpl.
  destruct (ensamblar_nombres_y_avisos tickers H) as [Hn He].
  assert (Hcols : ncols (dropna (fst (ensamblar yf tickers)))
                  = length (filter (fun t => negb (falla yf t)) tickers)).
  { unfold ncols.
    replace (length (columns (dropna (fst (ensamblar yf tickers)))))
      with (length (nombres (dropna (fst (ensamblar yf tickers)))))
      by apply length_map.
    rewrite nombres_dropna, Hn. reflexivity. }
  assert (Hav : length (snd (ensamblar yf tickers))
                = length (filter (falla yf) tickers)).
  { rewrite He. apply length_map. }
  split; [exact falla_casos|]. split; [|split; [|split; [|split]]].
  - intros t Ht F. rewrite nombres_dropna, Hn, He. split; [|split].
    + apply in_map, filter_In. auto.
    + rewrite filter_In, F. intros [_ ?]. discriminate.
    + apply aviso_de_ticker, F.
  - intros t Ht F. rewrite nombres_dropna, Hn.
    apply filter_In. rewrite F. auto.
  - exact Hcols.
  - exact Hav.
  - pose proof (filter_particion (falla yf) tickers). lia.
Qed.

(** C8.  When the table that comes back from the download is empty, the
    pass shows the download warnings and then the error, and stops: no
    metric, return or correlation is computed. *)
Theorem tabla_vacia_detiene (activos_seleccionados : list string) :
  activos_seleccionados <> [] ->
  empty (fst (descargar_datos yf activos_seleccionados)) = true ->
  pase yf activos_seleccionados
  = Detenido
      (map Advertencia (snd (descargar_datos yf activos_seleccionados)) ++
       [Error "❌ No se pudieron descargar datos válidos. Verifica los tickers y el período seleccionado."]).
Proof.
  intros Hs He. unfold pase.
  destruct activos_seleccionados as [|a l]; [congruence|].
  destruct (descargar_datos yf (a :: l)) as [datos errores].
  simpl in He. rewrite He. reflexivity.
Qed.


(** When every requested ticker fails there is nothing to show. *)
Lemma todos_fallan_tabla_vacia (tickers : list string) :
  forallb (falla yf) tickers = true ->
  empty (fst (descargar_datos yf tickers)) = true.
Proof.
  intros H. rewrite descargar_datos_ensamblar. simpl.
  assert (E : forall l st, forallb (falla yf) l = true ->
              fst (fold_left (descargar_paso yf) l st) = fst st).
  { induction l as [|t l IH]; intros [d e] Hl; simpl in *; auto.
    apply andb_true_iff in Hl as [Ht Hl]. unfold falla in Ht.
    destruct (obtener yf t) as [[? ?]|a]; [discriminate|].
    rewrite (IH _ Hl). reflexivity. }
  unfold ensamblar. rewrite (E _ _ H). reflexivity.
Qed.

End Descarga.

Lemma cada_ticker_columna_o_aviso_witness :
  let tickers := ["GGAL.BA"; "YPF"; "PAM.BA"]%string in
  let datos := fst (ensamblar yf_uno_falla tickers) in
  let errores := snd (ensamblar yf_uno_falla tickers) in
  nombres datos = filter (fun t => negb (falla yf_uno_falla t)) tickers /\
  errores = map (aviso_de yf_uno_falla) (filter (falla yf_uno_falla) tickers) /\
  NoDup (nombres datos) /\
  (forall t, In t tickers ->
     (In t (nombres datos) /\ falla yf_uno_falla t = false) \/
     (~ In t (nombres datos) /\ falla yf_uno_falla t = true /\
      In (aviso_de yf_uno_falla t) errores)) /\
  (ncols datos + length errores = length tickers)%nat.
Proof.
  apply (cada_ticker_columna_o_aviso yf_uno_falla
           ["GGAL.BA"; "YPF"; "PAM.BA"]%string).
  reflexivity.
Defined.

(** Three tickers, the second one fails: two columns, one warning. *)
Lemma fallo_por_ticker_no_interrumpe_witness :
  (let tickers := ["GGAL.BA"; "YPF"; "PAM.BA"]%string in
   let datos := fst (descargar_datos yf_uno_falla tickers) in
   let avisos := snd (descargar_datos yf_uno_falla tickers) in
   (forall t, falla yf_uno_falla t = true <->
      (exists e, yf_uno_falla t = Lanza e) \/
      (exists df, yf_uno_falla t = Devuelve df /\
                  (empty df = true \/ buscar "Close" (columns df) = None))) /\
   (forall t, In t tickers -> falla yf_uno_falla t = true ->
      In (aviso_de yf_uno_falla t) avisos /\ ~ In t (nombres datos) /\
      exists motivo, aviso_de yf_uno_falla t = (t ++ ": " ++ motivo)%string) /\
   (forall t, In t tickers -> falla yf_uno_falla t = false ->
      In t (nombres datos)) /\
   ncols datos
   = length (filter (fun t => negb (falla yf_uno_falla t)) tickers) /\
   length avisos = length (filter (falla yf_uno_falla) tickers) /\
   (length tickers = 3%nat ->
    length (filter (falla yf_uno_falla) tickers) = 1%nat ->
    ncols datos = 2%nat /\ length avisos = 1%nat)) /\
  descargar_datos yf_uno_falla ["GGAL.BA"; "YPF"; "PAM.BA"]%string
  = (mkDF [1; 2; 3]%Z
       [("GGAL.BA"%string, [100; 110; 121]); ("PAM.BA"%string, [50; 51; 49])],
     ["YPF: timed out"%string]).
Proof.
  split.
  - apply (fallo_por_ticker_no_interrumpe yf_uno_falla
             ["GGAL.BA"; "YPF"; "PAM.BA"]%string).
    reflexivity.
  - vm_compute. reflexivity.
Defined.

Lemma tabla_vacia_detiene_witness :
  pase yf_sin_datos ["AAPL"; "MSFT"]%string
  = Detenido
      (map Advertencia
           (snd (descargar_datos yf_sin_datos ["AAPL"; "MSFT"]%string)) ++
       [Error "❌ No se pudieron descargar datos válidos. Verifica los tickers y el período seleccionado."]).
Proof.
  apply (tabla_vacia_detiene yf_sin_datos ["AAPL"; "MSFT"]%string).
  - discriminate.
  - reflexivity.
Defined.

(** ** Correlation matrix *)

Section Correlaciones.

Context {I : Type}.

Lemma nth_map_seq {A} (f : nat -> A) (n i : nat) (d : A) :
  (i < n)%nat -> nth i (map f (seq 0 n)) d = f i.
Proof.
  intros H. rewrite (nth_indep _ d (f 0%nat)) by (rewrite length_map, length_seq; exact H).
  rewrite map_nth, seq_nth by exact H. reflexivity.
Qed.

(** The cell of the matrix is the coefficient pandas stored there. *)
Lemma iloc_corr (df : DataFrame I) (a b : nat) :
  (a < ncols df)%nat -> (b < ncols df)%nat ->
  iloc (corr df) a b = entrada_corr df a b.
Proof.
  intros Ha Hb. unfold iloc, columna_n, corr. simpl.
  rewrite map_map. simpl.
  rewrite (nth_map_seq (fun yi => map (fun xi => entrada_corr df xi yi)
                                      (seq 0 (ncols df))) _ _ _ Hb).
  apply (nth_map_seq (fun xi => entrada_corr df xi b)), Ha.
Qed.

Lemma entrada_corr_sym (df : DataFrame I) (a b : nat) :
  entrada_corr df a b = entrada_corr df b a.
Proof.
  unfold entrada_corr.
  destruct (b <=? a)%nat eqn:E1, (a <=? b)%nat eqn:E2; try reflexivity.
  - apply Nat.leb_le in E1, E2. replace b with a by lia. reflexivity.
  - apply Nat.leb_gt in E1, E2. lia.
Qed.





End Correlaciones.



(** ** The table a download returns *)

Section Tabla_descargada.

Variable yf : string -> Respuesta.

Lemma length_reindexar (idx s_idx : list Z) (s : Serie) :
  length (reindexar idx s_idx s) = length idx.
Proof. apply length_map. Qed.

Lemma forallb_poner (p : string * Serie -> bool) (k : string) (v : Serie)
    (cols : list (string * Serie)) :
  forallb p cols = true -> p (k, v) = true -> forallb p (poner k v cols) = true.
Proof.
  induction cols as [|[k' v'] cols IH]; simpl; intros H Hp.
  - rewrite Hp. reflexivity.
  - apply andb_true_iff in H as [H1 H2].
    destruct (String.eqb k k'); simpl.
    + rewrite Hp, H2. reflexivity.
    + rewrite H1. apply IH; assumption.
Qed.

Lemma in_nombres_poner (x k : string) (v : Serie) (cols : list (string * Serie)) :
  In x (map fst (poner k v cols)) <-> x = k \/ In x (map fst cols).
Proof.
  induction cols as [|[k' v'] cols IH]; simpl.
  - intuition congruence.
  - destruct (String.eqb k k') eqn:E; simpl.
    + apply String.eqb_eq in E. subst. intuition congruence.
    + rewrite IH. intuition congruence.
Qed.

Lemma NoDup_nombres_poner (k : string) (v : Serie) (cols : list (string * Serie)) :
  NoDup (map fst cols) -> NoDup (map fst (poner k v cols)).
Proof.
  induction cols as [|[k' v'] cols IH]; simpl; intros N.
  - constructor; [intros []|constructor].
  - inversion N as [|? ? Hn N']; subst.
    destruct (String.eqb k k') eqn:E; simpl.
    + apply String.eqb_eq in E. subst. constructor; assumption.
    + constructor; [|apply IH, N'].
      rewrite in_nombres_poner. intros [->|H]; [|contradiction].
      rewrite String.eqb_refl in E. discriminate.
Qed.

Lemma buscar_poner (t k : string) (v : Serie) (cols : list (string * Serie)) :
  buscar t (poner k v cols)
  = if String.eqb t k then Some v else buscar t cols.
Proof.
  induction cols as [|[k' v'] cols IH]; simpl.
  - reflexivity.
  - destruct (String.eqb k k') eqn:E; simpl.
    + apply String.eqb_eq in E. subst. destruct (String.eqb t k'); reflexivity.
    + destruct (String.eqb t k') eqn:E'; [|exact IH].
      apply String.eqb_eq in E'. subst.
      rewrite String.eqb_sym, E. reflexivity.
Qed.

(** Assigning a column keeps the table rectangular and its names distinct. *)
Lemma asignar_bien_formada (datos : DataFrame Z) (t : string) (s_idx : list Z)
    (s : Serie) :
  bien_formada datos = true -> bien_formada (asignar datos t s_idx s) = true.
Proof.
  unfold bien_formada, asignar, nrows. intros H.
  destruct (index datos) as [|d idx] eqn:E; simpl index; simpl columns.
  - apply forallb_poner.
    + rewrite forallb_map_comp. apply forallb_forall. intros c _. simpl.
      rewrite length_map. apply Nat.eqb_refl.
    + simpl. unfold reindexar. rewrite length_map. apply Nat.eqb_refl.
  - apply forallb_poner; [exact H|].
    simpl. unfold reindexar. rewrite length_map. apply Nat.eqb_refl.
Qed.

Lemma asignar_NoDup (datos : DataFrame Z) (t : string) (s_idx : list Z)
    (s : Serie) :
  NoDup (nombres datos) -> NoDup (nombres (asignar datos t s_idx s)).
Proof.
  unfold nombres, asignar. intros N.
  destruct (index datos); simpl; apply NoDup_nombres_poner.
  - rewrite map_map. simpl. exact N.
  - exact N.
Qed.

Lemma ensamblar_invariante (tickers : list string)
    (st : DataFrame Z * list string) :
  bien_formada (fst st) = true -> NoDup (nombres (fst st)) ->
  bien_formada (fst (fold_left (descargar_paso yf) tickers st)) = true /\
  NoDup (nombres (fst (fold_left (descargar_paso yf) tickers st))).
Proof.
  revert st; induction tickers as [|t tickers IH]; intros [datos errores];
    simpl; intros W N; [split; assumption|].
  apply IH; destruct (obtener yf t) as [[s_idx close]|aviso]; simpl;
    auto using asignar_bien_formada, asignar_NoDup.
Qed.

Lemma length_filtrar_igual {A B} (m : list bool) (l : list A) (l' : list B) :
  length l = length l' -> length (filtrar m l) = length (filtrar m l').
Proof.
  revert l l'; induction m as [|b m IH]; intros [|x l] [|y l']; simpl;
    try discriminate; auto.
  intros H. injection H as H. destruct b; simpl; auto.
Qed.

(** [dropna] keeps a rectangular table rectangular. *)
Lemma dropna_bien_formada {I} (df : DataFrame I) :
  bien_formada df = true -> bien_formada (dropna df) = true.
Proof.
  unfold bien_formada, dropna, nrows. simpl. intros H.
  rewrite forallb_map_comp. simpl.
  rewrite forallb_forall in H |- *. intros c Hc.
  apply Nat.eqb_eq. apply length_filtrar_igual, Nat.eqb_eq, H, Hc.
Qed.

(** X1.  Whatever the client answers and whatever is requested, the table
    [descargar_datos] returns is rectangular, has no missing value and no
    two columns of the same name. *)
Theorem descargar_datos_tabla_completa (tickers : list string) :
  bien_formada (fst (descargar_datos yf tickers)) = true /\
  sin_faltantes (fst (descargar_datos yf tickers)) = true /\
  NoDup (nombres (fst (descargar_datos yf tickers))).
Proof.
  rewrite descargar_datos_ensamblar. simpl.
  destruct (ensamblar_invariante tickers (mkDF [] [], []) eq_refl
              (NoDup_nil _)) as [W N].
  split; [apply dropna_bien_formada, W|].
  split; [apply dropna_sin_faltantes|].
  rewrite nombres_dropna. exact N.
Qed.

Lemma obtener_fechas_no_vacias (t : string) (s_idx : list Z) (close : Serie) :
  obtener yf t = inl (s_idx, close) -> s_idx <> [].
Proof.
  unfold obtener. destruct (yf t) as [e|df]; [discriminate|].
  destruct (empty df) eqn:E; simpl; [discriminate|].
  destruct (buscar "Close" (columns df)); [|discriminate].
  intros H. injection H as <- _. intros Hi.
  unfold empty, nrows in E. rewrite Hi in E. discriminate.
Qed.

Lemma reindexar_valor_en (t : string) (idx s_idx : list Z) (close : Serie) :
  obtener yf t = inl (s_idx, close) ->
  reindexar idx s_idx close = map (valor_en yf t) idx.
Proof.
  intros H. unfold reindexar, valor_en. rewrite H. reflexivity.
Qed.

Lemma in_poner (c : string * Serie) (k : string) (v : Serie)
    (cols : list (string * Serie)) :
  In c (poner k v cols) -> c = (k, v) \/ In c cols.
Proof.
  induction cols as [|[k' v'] cols IH]; simpl.
  - intuition.
  - destruct (String.eqb k k'); simpl; intuition.
Qed.

(** One iteration keeps the columns coherent. *)
Lemma descargar_paso_coherente (st : DataFrame Z * list string) (t : string) :
  coherente yf (fst st) -> (index (fst st) = [] -> columns (fst st) = []) ->
  coherente yf (fst (descargar_paso yf st t)) /\
  (index (fst (descargar_paso yf st t)) = [] ->
   columns (fst (descargar_paso yf st t)) = []) /\
  index (fst (descargar_paso yf st t))
  = match index (fst st) with
    | [] => fechas_primer_exito yf [t]
    | idx => idx
    end.
Proof.
  destruct st as [datos errores]. unfold descargar_paso. simpl.
  intros C V. destruct (obtener yf t) as [[s_idx close]|aviso] eqn:E; simpl.
  - pose proof (obtener_fechas_no_vacias _ _ _ E) as Hne.
    assert (F : falla yf t = false) by (unfold falla; rewrite E; reflexivity).
    unfold asignar. destruct (index datos) as [|d idx] eqn:Ei;
      cbn [fst index columns].
    + rewrite (V eq_refl). cbn [map poner].
      split; [|split; [congruence|reflexivity]].
      intros c [<-|[]]. cbn [fst snd]. split; [exact F|].
      apply reindexar_valor_en, E.
    + split; [|split; [discriminate|reflexivity]].
      intros c Hc. apply in_poner in Hc as [->|Hc].
      * cbn [fst snd]. split; [exact F|]. apply reindexar_valor_en, E.
      * rewrite <- Ei. apply C, Hc.
  - split; [exact C|]. split; [exact V|].
    destruct (index datos); reflexivity.
Qed.

Lemma fechas_primer_exito_cons (t : string) (tickers : list string) :
  fechas_primer_exito yf (t :: tickers)
  = match fechas_primer_exito yf [t] with
    | [] => fechas_primer_exito yf tickers
    | idx => idx
    end.
Proof.
  simpl. destruct (obtener yf t) as [[s_idx close]|aviso] eqn:E;
    [|reflexivity].
  pose proof (obtener_fechas_no_vacias _ _ _ E).
  destruct s_idx; [congruence|reflexivity].
Qed.

(** The loop: coherent columns, on the dates of the first success. *)
Lemma descargar_bucle_coherente (tickers : list string)
    (st : DataFrame Z * list string) :
  coherente yf (fst st) -> (index (fst st) = [] -> columns (fst st) = []) ->
  coherente yf (fst (fold_left (descargar_paso yf) tickers st)) /\
  index (fst (fold_left (descargar_paso yf) tickers st))
  = match index (fst st) with
    | [] => fechas_primer_exito yf tickers
    | idx => idx
    end.
Proof.
  revert st; induction tickers as [|t tickers IH]; intros st C V.
  - simpl. split; [exact C|]. destruct (index (fst st)); reflexivity.
  - destruct (descargar_paso_coherente st t C V) as [C' [V' Hi]].
    destruct (IH _ C' V') as [C'' Hi'']. simpl fold_left.
    split; [exact C''|]. rewrite Hi'', Hi, (fechas_primer_exito_cons t tickers).
    destruct (index (fst st)); [|reflexivity].
    destruct (fechas_primer_exito yf [t]); reflexivity.
Qed.

Lemma nombres_paso (st : DataFrame Z * list string) (t x : string) :
  In x (nombres (fst (descargar_paso yf st t))) <->
  (x = t /\ falla yf t = false) \/ In x (nombres (fst st)).
Proof.
  destruct st as [datos errores]. unfold descargar_paso, falla. simpl.
  destruct (obtener yf t) as [[s_idx close]|aviso]; simpl.
  - unfold nombres, asignar. destruct (index datos); simpl;
      rewrite in_nombres_poner, ?map_map; simpl; intuition.
  - intuition discriminate.
Qed.

(** The names of the assembled table are the tickers that succeed. *)
Lemma nombres_bucle (tickers : list string) (st : DataFrame Z * list string)
    (x : string) :
  In x (nombres (fst (fold_left (descargar_paso yf) tickers st))) <->
  (In x tickers /\ falla yf x = false) \/ In x (nombres (fst st)).
Proof.
  revert st; induction tickers as [|t tickers IH]; intros st; simpl.
  - intuition.
  - rewrite IH, nombres_paso. intuition (subst; auto).
Qed.

Lemma repeat_true_map {A} (l : list A) :
  repeat true (length l) = map (fun _ => true) l.
Proof. induction l; simpl; congruence. Qed.

Lemma map2_andb_map {A} (p q : A -> bool) (l : list A) :
  map2 andb (map p l) (map q l) = map (fun x => p x && q x) l.
Proof. induction l; simpl; congruence. Qed.

(** On columns that are functions of the date, a row is complete when
    every column has a value on its date. *)
Lemma filas_completas_por_fecha (h : string -> Z -> float) (idx : list Z)
    (cols : list (string * Serie)) :
  (forall c, In c cols -> snd c = map (h (fst c)) idx) ->
  fold_right (fun c m => map2 andb (map notna (snd c)) m)
             (repeat true (length idx)) cols
  = map (fun d => forallb (fun c => notna (h (fst c) d)) cols) idx.
Proof.
  induction cols as [|c cols IH]; simpl; intros H.
  - apply repeat_true_map.
  - rewrite IH by (intros; apply H; auto).
    rewrite (H c (or_introl eq_refl)), map_map.
    apply (map2_andb_map (fun d => notna (h (fst c) d))).
Qed.

Lemma filtrar_map_filter {A} (p : A -> bool) (l : list A) :
  filtrar (map p l) l = filter p l.
Proof.
  induction l as [|x l IH]; simpl; auto. destruct (p x); congruence.
Qed.

Lemma filtrar_map_map {A B} (p : A -> bool) (g : A -> B) (l : list A) :
  filtrar (map p l) (map g l) = map g (filter p l).
Proof.
  induction l as [|x l IH]; simpl; auto. destruct (p x); simpl; congruence.
Qed.

Lemma buscar_en_nombres {V} (t : string) (cols : list (string * V)) :
  In t (map fst cols) -> exists s, buscar t cols = Some s /\ In (t, s) cols.
Proof.
  induction cols as [|[k v] cols IH]; simpl; [intros []|].
  destruct (String.eqb t k) eqn:E.
  - apply String.eqb_eq in E. subst. eauto.
  - intros [H|H]; [subst; rewrite String.eqb_refl in E; discriminate|].
    destruct (IH H) as [s [Hs Hin]]. eauto.
Qed.

(** The rows that survive, for the assembled table. *)
Lemma filas_completas_ensamblar (tickers : list string) :
  filas_completas (fst (ensamblar yf tickers))
  = map (fecha_completa yf tickers) (index (fst (ensamblar yf tickers))).
Proof.
  destruct (descargar_bucle_coherente tickers (mkDF [] [], []))
    as [C _]; [intros c [] | reflexivity |].
  fold (ensamblar yf tickers) in C.
  unfold filas_completas, nrows.
  rewrite (filas_completas_por_fecha (valor_en yf))
    by (intros c Hc; apply C, Hc).
  apply map_ext. intros d. unfold fecha_completa.
  apply eq_true_iff_eq. rewrite !forallb_forall. split.
  - intros H t Ht. destruct (falla yf t) eqn:F; [reflexivity|]. simpl.
    assert (Hn : In t (nombres (fst (ensamblar yf tickers)))).
    { apply nombres_bucle. left. auto. }
    apply buscar_en_nombres in Hn as [s [_ Hin]].
    apply (H (t, s) Hin).
  - intros H c Hc.
    assert (Hn : In (fst c) (nombres (fst (ensamblar yf tickers))))
      by (apply in_map, Hc).
    apply nombres_bucle in Hn as [[Ht F]|[]].
    specialize (H _ Ht). rewrite F in H. exact H.
Qed.

(** X2.  The dates of the table [descargar_datos] returns are the dates of
    the first ticker that succeeds, without those on which some ticker that
    succeeds has no close; on them the column of every such ticker holds the
    closes the client gave. *)
Theorem descargar_datos_fechas_y_valores (tickers : list string) :
  index (fst (descargar_datos yf tickers))
  = filter (fecha_completa yf tickers) (fechas_primer_exito yf tickers) /\
  forall t, In t tickers -> falla yf t = false ->
    buscar t (columns (fst (descargar_datos yf tickers)))
    = Some (map (valor_en yf t) (index (fst (descargar_datos yf tickers)))).
Proof.
  rewrite descargar_datos_ensamblar. simpl.
  destruct (descargar_bucle_coherente tickers (mkDF [] [], []))
    as [C Hi]; [intros c [] | reflexivity |].
  fold (ensamblar yf tickers) in C, Hi. simpl in Hi.
  unfold dropna. simpl. rewrite filas_completas_ensamblar.
  rewrite filtrar_map_filter. split; [rewrite Hi; reflexivity|].
  intros t Ht F.
  assert (Hn : In t (nombres (fst (ensamblar yf tickers)))).
  { apply nombres_bucle. left. auto. }
  apply buscar_en_nombres in Hn as [s [Hs Hin]].
  rewrite (buscar_map_snd
             (filtrar (map (fecha_completa yf tickers)
                           (index (fst (ensamblar yf tickers)))))), Hs.
  destruct (C _ Hin) as [_ Hv]. cbn [fst snd] in Hv. subst s.
  cbn [option_map]. rewrite filtrar_map_map. reflexivity.
Qed.

End Tabla_descargada.

Lemma descargar_datos_fechas_y_valores_witness :
  let tickers := ["BTC-USD"; "QQQ"; "SPY"]%string in
  (index (fst (descargar_datos yf_fechas_distintas tickers))
   = filter (fecha_completa yf_fechas_distintas tickers)
       (fechas_primer_exito yf_fechas_distintas tickers) /\
   forall t, In t tickers -> falla yf_fechas_distintas t = false ->
     buscar t (columns (fst (descargar_datos yf_fechas_distintas tickers)))
     = Some (map (valor_en yf_fechas_distintas t)
               (index (fst (descargar_datos yf_fechas_distintas tickers))))) /\
  fechas_primer_exito yf_fechas_distintas tickers = [1; 2; 3; 4; 5]%Z /\
  index (fst (descargar_datos yf_fechas_distintas tickers)) = [1; 2; 5]%Z /\
  buscar "SPY" (columns (fst (descargar_datos yf_fechas_distintas tickers)))
  = Some [400; 402; 401].
Proof.
  split.
  - apply (descargar_datos_fechas_y_valores yf_fechas_distintas
             ["BTC-USD"; "QQQ"; "SPY"]%string).
  - vm_compute. repeat split.
Defined.

(** ** How a render pass ends *)

Section Fin_del_pase.

Variable yf : string -> Respuesta.

Lemma descargar_bucle_todos_fallan (l : list string) (datos : DataFrame Z)
    (errores : list string) :
  forallb (falla yf) l = true ->
  fold_left (descargar_paso yf) l (datos, errores)
  = (datos, errores ++ map (aviso_de yf) l).
Proof.
  revert errores; induction l as [|t l IH]; intros errores H; simpl.
  - rewrite app_nil_r. reflexivity.
  - simpl in H. apply andb_true_iff in H as [Ht H].
    unfold falla in Ht. unfold aviso_de at 1.
    destruct (obtener yf t) as [[? ?]|a]; [discriminate|].
    rewrite (IH _ H), <- app_assoc. reflexivity.
Qed.

(** X3.  When the fetch of every selected ticker fails, the pass shows one
    warning per ticker, in the order selected, then the error, and stops. *)
Theorem todos_fallan_detiene (activos_seleccionados : list string) :
  activos_seleccionados <> [] ->
  forallb (falla yf) activos_seleccionados = true ->
  pase yf activos_seleccionados
  = Detenido
      (map (fun t => Advertencia (aviso_de yf t)) activos_seleccionados ++
       [Error "❌ No se pudieron descargar datos válidos. Verifica los tickers y el período seleccionado."]).
Proof.
  intros Hs Hf. unfold pase, descargar_datos, ensamblar.
  destruct activos_seleccionados as [|a l]; [congruence|].
  rewrite (descargar_bucle_todos_fallan _ _ _ Hf).
  cbn [app]. rewrite map_map. reflexivity.
Qed.

(** The function raises exactly on a table without rows, with or without
    columns. *)
Lemma calcular_metricas_raise (datos : DataFrame Z) :
  calcular_metricas datos = Raise IndexError <-> nrows datos = 0%nat.
Proof.
  unfold calcular_metricas, iloc_primera, iloc_ultima, nrows.
  destruct (index datos); simpl; split; try reflexivity; discriminate.
Qed.


End Fin_del_pase.

Lemma todos_fallan_detiene_witness :
  pase yf_sin_datos ["AAPL"; "MSFT"]%string
  = Detenido
      [Advertencia "AAPL: Sin datos disponibles";
       Advertencia "MSFT: Sin datos disponibles";
       Error "❌ No se pudieron descargar datos válidos. Verifica los tickers y el período seleccionado."].
Proof.
  apply (todos_fallan_detiene yf_sin_datos ["AAPL"; "MSFT"]%string).
  - discriminate.
  - reflexivity.
Defined.

(** ** Exact quotients and the order of binary64 *)

Ltac casos_compare :=
  repeat match goal with
  | |- context [Z.compare ?x ?y] => destruct (Z.compare_spec x y)
  | |- context [Pos.compare_cont Eq ?x ?y] =>
      change (Pos.compare_cont Eq x y) with (Pos.compare x y)
  | |- context [Pos.compare ?x ?y] => destruct (Pos.compare_spec x y)
  end.

Section Orden.

Lemma div_eucl_shiftl (m : positive) :
  Z.div_eucl (Z.shiftl (Zpos m) 53) (Zpos m) = (9007199254740992, 0)%Z.
Proof.
  rewrite Z.shiftl_mul_pow2 by lia.
  change (2 ^ 53)%Z with 9007199254740992%Z.
  pose proof (Z.div_mul 9007199254740992 (Zpos m) ltac:(lia)) as Hq.
  pose proof (Z.mod_mul 9007199254740992 (Zpos m) ltac:(lia)) as Hr.
  rewrite (Z.mul_comm (Zpos m)).
  unfold Z.div, Z.modulo in Hq, Hr.
  destruct (Z.div_eucl (9007199254740992 * Zpos m) (Zpos m)) as [q r].
  simpl in Hq, Hr. congruence.
Qed.

Lemma SFdiv_diag (s : bool) (m : positive) (e : Z) :
  SF64div (S754_finite s m e) (S754_finite s m e)
  = S754_finite false 4503599627370496 (-52).
Proof.
  unfold SF64div, SFdiv, SFdiv_core_binary.
  replace (Zdigits2 (Zpos m) + e - (Zdigits2 (Zpos m) + e))%Z with 0%Z by lia.
  replace (e - e)%Z with 0%Z by lia.
  change (Z.min (fexp prec emax 0) 0) with (-53)%Z.
  change (0 - -53)%Z with 53%Z.
  cbv iota.
  change (IntDef.Z.div_eucl (IntDef.Z.shiftl (Zpos m) 53) (Zpos m))
    with (Z.div_eucl (Z.shiftl (Zpos m) 53) (Zpos m)).
  rewrite div_eucl_shiftl, xorb_nilpotent.
  unfold new_location. destruct (Z.even (Zpos m)); reflexivity.
Qed.

(** A finite non-zero value divided by itself is exactly 1. *)
Lemma div_diag (x : float) : finito_no_nulo x = true -> x / x = 1.
Proof.
  rewrite finito_no_nulo_spec. intros H. apply Prim2SF_inj.
  rewrite div_spec.
  destruct (Prim2SF x) as [s|s| |s m e]; try discriminate.
  rewrite SFdiv_diag. reflexivity.
Qed.

Lemma SFltb_trans (a b c : spec_float) :
  SFltb a b = true -> SFltb b c = true -> SFltb a c = true.
Proof.
  unfold SFltb, SFcompare.
  destruct a as [[]|[]| |[] ma ea]; destruct b as [[]|[]| |[] mb eb];
    try discriminate;
    destruct c as [[]|[]| |[] mc ec]; try discriminate; try reflexivity;
    casos_compare; simpl; intros; subst; try discriminate; try reflexivity;
    try lia.
Qed.

Lemma SFltb_asym (a b : spec_float) :
  SFltb a b = true -> SFltb b a = false.
Proof.
  unfold SFltb, SFcompare.
  destruct a as [[]|[]| |[] ma ea]; destruct b as [[]|[]| |[] mb eb];
    try discriminate; try reflexivity;
    casos_compare; simpl; intros; subst; try discriminate; try reflexivity;
    try lia.
Qed.

Lemma ltb_trans (a b c : float) :
  (a <? b) = true -> (b <? c) = true -> (a <? c) = true.
Proof. rewrite !ltb_spec. apply SFltb_trans. Qed.

Lemma ltb_asym (a b : float) : (a <? b) = true -> (b <? a) = false.
Proof. rewrite !ltb_spec. apply SFltb_asym. Qed.

Lemma ltb_irrefl (a : float) : (a <? a) = false.
Proof.
  destruct (a <? a) eqn:E; [|reflexivity].
  rewrite (ltb_asym a a E) in E. discriminate.
Qed.

Lemma ltb_notna_r (x y : float) : (x <? y) = true -> notna y = true.
Proof.
  unfold notna. rewrite ltb_spec, is_nan_spec.
  destruct (Prim2SF x), (Prim2SF y); simpl; auto; discriminate.
Qed.

Lemma div_nan (x y : float) : is_nan y = true -> is_nan (x / y) = true.
Proof.
  rewrite !is_nan_spec, div_spec.
  destruct (Prim2SF x), (Prim2SF y); simpl; auto; discriminate.
Qed.

Lemma mul_nan (x y : float) : is_nan x = true -> is_nan (x * y) = true.
Proof.
  rewrite !is_nan_spec, mul_spec.
  destruct (Prim2SF x), (Prim2SF y); simpl; auto; discriminate.
Qed.

End Orden.

(** ** Metrics that need at least two observations *)

Section Pocos_datos.

Lemma std_pocos (l : Serie) :
  (length (validos l) <= 1)%nat -> is_nan (std l) = true.
Proof.
  intros H. unfold std, var.
  destruct (Nat.leb_spec (length (validos l)) 1); [reflexivity | lia].
Qed.

Lemma length_validos (l : Serie) : (length (validos l) <= length l)%nat.
Proof. apply filter_length_le. Qed.

Lemma sharpe_pocos (r : Serie) :
  (length r <= 1)%nat -> is_nan (sharpe r) = true.
Proof.
  intros H. unfold sharpe. apply mul_nan, div_nan, std_pocos.
  pose proof (length_validos r). lia.
Qed.

Lemma sortino_pocos (r : Serie) :
  (length (filter (fun x => (x <? 0)%float) r) <= 1)%nat -> is_nan (sortino r) = true.
Proof.
  intros H. unfold sortino. apply mul_nan, div_nan, std_pocos.
  rewrite validos_solo_negativos. exact H.
Qed.

(** X5.  An instrument with fewer than two strictly negative returns has no
    Sortino ratio in the table (NaN), whatever its returns are; one with
    fewer than two returns has no volatility and no Sharpe ratio either. *)
Theorem ratios_sin_dato (datos : DataFrame Z) :
  (1 <= nrows datos)%nat ->
  exists metricas retornos,
    calcular_metricas datos = Ok (metricas, retornos) /\
    forall t r, buscar t (columns retornos) = Some r ->
      ((length (filter (fun x => (x <? 0)%float) r) <= 1)%nat ->
       exists v, loc metricas t "Sortino" = Some v /\ is_nan v = true) /\
      ((length r <= 1)%nat ->
       forall columna,
         In columna ["Volatilidad Diaria (%)"; "Volatilidad Anualizada (%)";
                     "Sharpe"]%string ->
         exists v, loc metricas t columna = Some v /\ is_nan v = true).
Proof.
  intros Hn. tabla_devuelta Hn.
  intros t r Hr. split.
  - intros Hneg.
    destruct (loc_metrica datos "Sortino" t sortino eq_refl) as [_ H].
    rewrite Hr in H. eexists. split; [exact H|].
    apply round2_nan, sortino_pocos, Hneg.
  - intros Hlen columna Hc.
    assert (Hs : is_nan (std r) = true).
    { apply std_pocos. pose proof (length_validos r). lia. }
    destruct Hc as [<-|[<-|[<-|[]]]].
    + destruct (loc_metrica datos "Volatilidad Diaria (%)" t
                  (fun r => std r * 100) eq_refl) as [_ H].
      rewrite Hr in H. eexists. split; [exact H|].
      apply round2_nan, mul_nan, Hs.
    + destruct (loc_metrica datos "Volatilidad Anualizada (%)" t
                  (fun r => std r * sqrt252 * 100) eq_refl) as [_ H].
      rewrite Hr in H. eexists. split; [exact H|].
      apply round2_nan, mul_nan, mul_nan, Hs.
    + destruct (loc_metrica datos "Sharpe" t sharpe eq_refl) as [_ H].
      rewrite Hr in H. eexists. split; [exact H|].
      apply round2_nan, sharpe_pocos, Hlen.
Qed.

End Pocos_datos.

(** The closes 100, 110, 121 only go up: no Sortino ratio. *)
Lemma ratios_sin_dato_witness :
  (1 <= nrows precios_100_110_121)%nat /\
  exists metricas retornos,
    calcular_metricas precios_100_110_121 = Ok (metricas, retornos) /\
    buscar "A" (columns retornos) = Some [110 / 100 - 1; 121 / 110 - 1] /\
    exists v, loc metricas "A" "Sortino" = Some v /\ is_nan v = true.
Proof.
  assert (Hn : (1 <= nrows precios_100_110_121)%nat) by (vm_compute; lia).
  split; [exact Hn|].
  destruct (ratios_sin_dato precios_100_110_121 Hn) as [m [r [H1 H2]]].
  exists m, r. split; [exact H1|].
  assert (Hr : buscar "A" (columns r) = Some [110 / 100 - 1; 121 / 110 - 1]).
  { rewrite (calcular_metricas_ok _ Hn) in H1. injection H1 as _ <-.
    vm_compute. reflexivity. }
  split; [exact Hr|].
  destruct (H2 _ _ Hr) as [H3 _]. apply H3. vm_compute. lia.
Defined.

(** ** The summary cards on a short period *)

Section Tarjetas_periodo_corto.

Lemma retornos_cortos (datos : DataFrame Z) (c : string * Serie) :
  bien_formada datos = true -> (nrows datos <= 2)%nat ->
  In c (columns (dropna (pct_change datos))) ->
  (length (snd c) <= 1)%nat.
Proof.
  intros W Hn Hc. unfold dropna, pct_change, por_columna in Hc.
  cbn [columns index] in Hc. rewrite map_map in Hc.
  apply in_map_iff in Hc as [c0 [<- Hin]]. cbn [snd fst].
  change (filas_completas _)
    with (mascara_pct (nrows datos) (columns datos)).
  unfold bien_formada in W.
  assert (Hl : length (snd c0) = nrows datos).
  { rewrite forallb_forall in W. apply Nat.eqb_eq, W, Hin. }
  destruct (nrows datos) as [|k].
  - destruct (snd c0); [|discriminate].
    destruct (mascara_pct 0 (columns datos)) as [|[] ?]; simpl; lia.
  - destruct (columns datos) as [|d cols]; [destruct Hin|].
    destruct (mascara_pct_primera k d cols W) as [m' [-> Hm]].
    destruct (snd c0) as [|x t]; simpl; [lia|].
    pose proof (filtrar_length_le m' (pct_desde x t)) as H.
    rewrite length_pct_desde in H. simpl in Hl. lia.
Qed.

Lemma idxmax_todo_nan (idx : list string) (s : Serie) :
  forallb is_nan s = true -> idxmax idx s = None.
Proof. intros H. unfold idxmax. rewrite H. reflexivity. Qed.

(** X6.  On a price table of one or two days the Sharpe column is all NaN,
    so the lookup of the best Sharpe ratio raises and the summary cards of
    the page are not produced, although the metrics were computed. *)
Theorem resumen_falla_con_dos_dias (datos : DataFrame Z) :
  bien_formada datos = true ->
  (1 <= nrows datos <= 2)%nat ->
  exists metricas retornos,
    calcular_metricas datos = Ok (metricas, retornos) /\
    (forall t v, loc metricas t "Sharpe" = Some v -> is_nan v = true) /\
    resumen_ejecutivo datos metricas = None.
Proof.
  intros W [Hn Hm]. tabla_devuelta Hn.
  assert (Hs : forallb is_nan
                 (map round2 (agg sharpe (dropna (pct_change datos)))) = true).
  { rewrite forallb_forall. intros v Hv.
    apply in_map_iff in Hv as [u [<- Hu]]. unfold agg in Hu.
    apply in_map_iff in Hu as [c [<- Hc]].
    apply round2_nan, sharpe_pocos, (retornos_cortos datos c W Hm Hc). }
  split.
  - intros t v. unfold loc.
    change (buscar "Sharpe" (columns (round_df (metricas_crudas datos))))
      with (Some (map round2 (agg sharpe (dropna (pct_change datos))))).
    cbn [index round_df por_columna].
    generalize (index (metricas_crudas datos)).
    rewrite forallb_forall in Hs.
    intros idx. revert Hs.
    generalize (map round2 (agg sharpe (dropna (pct_change datos)))).
    intros s. revert s.
    induction idx as [|k idx IH]; intros [|x s] Hs; simpl; try discriminate.
    destruct (String.eqb t k).
    + intros E. injection E as <-. apply Hs. left. reflexivity.
    + apply IH. intros y Hy. apply Hs. right. exact Hy.
  - unfold resumen_ejecutivo.
    assert (E : tarjeta idxmax (round_df (metricas_crudas datos)) "Sharpe"
                = None).
    { unfold tarjeta.
      change (buscar "Sharpe" (columns (round_df (metricas_crudas datos))))
        with (Some (map round2 (agg sharpe (dropna (pct_change datos))))).
      cbn iota. rewrite (idxmax_todo_nan _ _ Hs). reflexivity. }
    rewrite E.
    destruct (tarjeta idxmax _ "Rendimiento (%)"); [|reflexivity].
    destruct (tarjeta idxmin _ "Rendimiento (%)"); reflexivity.
Qed.

End Tarjetas_periodo_corto.

(** Two trading days of two instruments: the metrics are there, with a
    return for each instrument, and the cards are not. *)
Lemma resumen_falla_con_dos_dias_witness :
  (exists metricas retornos,
     calcular_metricas precios_dos_dias = Ok (metricas, retornos) /\
     (forall t v, loc metricas t "Sharpe" = Some v -> is_nan v = true) /\
     resumen_ejecutivo precios_dos_dias metricas = None) /\
  loc (round_df (metricas_crudas precios_dos_dias)) "AAPL" "Rendimiento (%)"
  = Some 1 /\
  loc (round_df (metricas_crudas precios_dos_dias)) "MSFT" "Rendimiento (%)"
  = Some (-1).
Proof.
  split.
  - apply (resumen_falla_con_dos_dias precios_dos_dias).
    + reflexivity.
    + vm_compute. lia.
  - vm_compute. split; reflexivity.
Defined.

(** ** The base-100 chart *)

Section Evolucion.

Lemma map2_map_r {A B C} (f : A -> B -> C) (g : A -> B) (l : list A) :
  map2 f l (map g l) = map (fun x => f x (g x)) l.
Proof. induction l; simpl; congruence. Qed.

Lemma buscar_NoDup {V} (k : string) (v : V) (l : list (string * V)) :
  NoDup (map fst l) -> In (k, v) l -> buscar k l = Some v.
Proof.
  induction l as [|[k' v'] l IH]; simpl; intros N H; [destruct H|].
  inversion N as [|? ? Hk N']; subst.
  destruct (String.eqb_spec k k') as [->|Hne].
  - destruct H as [H|H]; [congruence|].
    exfalso. apply Hk. apply (in_map fst) in H. exact H.
  - destruct H as [H|H]; [congruence|]. auto.
Qed.

Lemma datos_norm_columnas (datos : DataFrame Z) :
  (1 <= nrows datos)%nat ->
  datos_norm datos
  = Ok (mkDF (index datos)
          (map (fun c => (fst c, map (fun x => x / hd nan (snd c) * 100) (snd c)))
               (columns datos))).
Proof.
  unfold datos_norm, iloc_primera, nrows, agg.
  destruct (index datos); simpl; [lia|]. intros _.
  rewrite map2_map_r. reflexivity.
Qed.

(** X7.  When every instrument's first close is finite and not zero, the
    chart of the evolution tab has one line per instrument, in the table's
    order, holding that instrument's closes over its first close times 100,
    one value per date; each line starts exactly at 100, on the reference
    line. *)
Theorem evolucion_parte_de_100 (datos : DataFrame Z) :
  bien_formada datos = true ->
  NoDup (nombres datos) ->
  (1 <= nrows datos)%nat ->
  forallb (fun c => finito_no_nulo (hd nan (snd c))) (columns datos) = true ->
  exists base_100,
    datos_norm datos = Ok base_100 /\
    map (fun tr => (nombre tr, eje_y tr))
        (trazas (crear_grafico_evolucion base_100))
    = map (fun c => (fst c, map (fun x => x / hd nan (snd c) * 100) (snd c)))
          (columns datos) /\
    lineas_h (crear_grafico_evolucion base_100) = [100] /\
    forall tr, In tr (trazas (crear_grafico_evolucion base_100)) ->
      eje_x tr = index datos /\
      length (eje_y tr) = nrows datos /\
      hd nan (eje_y tr) = 100.
Proof.
  intros W N Hn F. eexists. split; [apply datos_norm_columnas, Hn|].
  set (g := fun c : string * Serie =>
              (fst c, map (fun x => x / hd nan (snd c) * 100) (snd c))).
  assert (Hnom : map fst (map g (columns datos)) = nombres datos).
  { rewrite map_map. reflexivity. }
  assert (Htr : forall c, In c (columns datos) ->
            buscar (fst (g c)) (map g (columns datos)) = Some (snd (g c))).
  { intros c Hc. apply buscar_NoDup; [rewrite Hnom; exact N|].
    rewrite <- surjective_pairing. apply in_map, Hc. }
  unfold crear_grafico_evolucion, nombres. cbn [trazas lineas_h columns index].
  split; [|split; [reflexivity|]].
  - rewrite !map_map. apply (map_ext_in _ g (columns datos)). intros c Hc.
    cbn [nombre eje_y]. rewrite (Htr c Hc). reflexivity.
  - intros tr Htr'. rewrite !map_map in Htr'.
    apply in_map_iff in Htr' as [c [<- Hc]].
    cbn [eje_x eje_y]. rewrite (Htr c Hc). unfold g. cbn [snd].
    split; [reflexivity|]. rewrite length_map.
    unfold bien_formada in W. rewrite forallb_forall in W, F.
    pose proof (W c Hc) as Hl. apply Nat.eqb_eq in Hl.
    split; [exact Hl|].
    specialize (F c Hc). destruct (snd c) as [|x t]; simpl in *; [lia|].
    rewrite (div_diag x F). reflexivity.
Qed.

End Evolucion.

(** Three instruments over four days: three lines that start at 100. *)
Lemma evolucion_parte_de_100_witness :
  (exists base_100,
     datos_norm precios_tres_activos = Ok base_100 /\
     map (fun tr => (nombre tr, eje_y tr))
         (trazas (crear_grafico_evolucion base_100))
     = map (fun c => (fst c, map (fun x => x / hd nan (snd c) * 100) (snd c)))
           (columns precios_tres_activos) /\
     lineas_h (crear_grafico_evolucion base_100) = [100] /\
     forall tr, In tr (trazas (crear_grafico_evolucion base_100)) ->
       eje_x tr = index precios_tres_activos /\
       length (eje_y tr) = nrows precios_tres_activos /\
       hd nan (eje_y tr) = 100) /\
  map (fun x => x / 200 * 100) [200; 198; 204; 202] = [100; 99; 102; 101].
Proof.
  split.
  - apply (evolucion_parte_de_100 precios_tres_activos).
    + reflexivity.
    + repeat constructor; simpl; intuition discriminate.
    + vm_compute. lia.
    + reflexivity.
  - vm_compute. reflexivity.
Defined.

(** ** Best and worst performer *)

Section Mejor_y_peor.

Lemma argmax_desde_spec (d : float) (l pre : Serie) (bi : nat) (b : float) :
  (bi < length pre)%nat -> nth bi pre d = b ->
  (forall x, In x pre -> (b <? x) = false) ->
  forall x, In x (pre ++ l) ->
    (nth (argmax_desde (length pre) bi b l) (pre ++ l) d <? x) = false.
Proof.
  revert pre bi b; induction l as [|y t IH]; intros pre bi b Hb Hn Hmax;
    simpl.
  - rewrite app_nil_r, Hn. exact Hmax.
  - replace (pre ++ y :: t) with ((pre ++ [y]) ++ t)
      by (rewrite <- app_assoc; reflexivity).
    replace (S (length pre)) with (length (pre ++ [y]))
      by (rewrite length_app; simpl; lia).
    destruct (b <? y) eqn:E; apply IH.
    + rewrite length_app; simpl; lia.
    + rewrite app_nth2, Nat.sub_diag by lia. reflexivity.
    + intros x Hx. apply in_app_iff in Hx as [Hx|[<-|[]]].
      * destruct (y <? x) eqn:E2; [|reflexivity].
        rewrite <- (Hmax x Hx). symmetry. apply (ltb_trans _ _ _ E E2).
      * apply ltb_irrefl.
    + rewrite length_app; simpl; lia.
    + rewrite app_nth1 by lia. exact Hn.
    + intros x Hx. apply in_app_iff in Hx as [Hx|[<-|[]]]; auto.
Qed.

Lemma argmin_desde_spec (d : float) (l pre : Serie) (bi : nat) (b : float) :
  (bi < length pre)%nat -> nth bi pre d = b ->
  (forall x, In x pre -> (x <? b) = false) ->
  forall x, In x (pre ++ l) ->
    (x <? nth (argmin_desde (length pre) bi b l) (pre ++ l) d) = false.
Proof.
  revert pre bi b; induction l as [|y t IH]; intros pre bi b Hb Hn Hmin;
    simpl.
  - rewrite app_nil_r, Hn. exact Hmin.
  - replace (pre ++ y :: t) with ((pre ++ [y]) ++ t)
      by (rewrite <- app_assoc; reflexivity).
    replace (S (length pre)) with (length (pre ++ [y]))
      by (rewrite length_app; simpl; lia).
    destruct (y <? b) eqn:E; apply IH.
    + rewrite length_app; simpl; lia.
    + rewrite app_nth2, Nat.sub_diag by lia. reflexivity.
    + intros x Hx. apply in_app_iff in Hx as [Hx|[<-|[]]].
      * destruct (x <? y) eqn:E2; [|reflexivity].
        rewrite <- (Hmin x Hx). symmetry. apply (ltb_trans _ _ _ E2 E).
      * apply ltb_irrefl.
    + rewrite length_app; simpl; lia.
    + rewrite app_nth1 by lia. exact Hn.
    + intros x Hx. apply in_app_iff in Hx as [Hx|[<-|[]]]; auto.
Qed.

Lemma argmax_spec (l : Serie) (x : float) :
  In x l -> (nth (argmax l) l nan <? x) = false.
Proof.
  destruct l as [|y t]; [intros []|]. intros Hx. unfold argmax.
  apply (argmax_desde_spec nan t [y] 0 y); simpl; auto.
  intros z [<-|[]]. apply ltb_irrefl.
Qed.

Lemma argmin_spec (l : Serie) (x : float) :
  In x l -> (x <? nth (argmin l) l nan) = false.
Proof.
  destruct l as [|y t]; [intros []|]. intros Hx. unfold argmin.
  apply (argmin_desde_spec nan t [y] 0 y); simpl; auto.
  intros z [<-|[]]. apply ltb_irrefl.
Qed.

(** With distinct labels, looking a label up gives the value at its
    position. *)
Lemma buscar_combine_nth {V} (idx : list string) (s : list V) (j : nat)
    (t : string) :
  NoDup idx -> nth_error idx j = Some t ->
  buscar t (combine idx s) = nth_error s j.
Proof.
  revert s j; induction idx as [|k idx IH]; intros s j N Hj.
  - destruct j; discriminate.
  - inversion N as [|? ? Hk N']; subst.
    destruct j as [|j]; simpl in Hj.
    + injection Hj as ->. destruct s; simpl; [reflexivity|].
      rewrite String.eqb_refl. reflexivity.
    + destruct s as [|v s]; simpl.
      * reflexivity.
      * destruct (String.eqb_spec t k) as [->|_].
        -- exfalso. apply Hk. eapply nth_error_In, Hj.
        -- apply IH; assumption.
Qed.

Lemma buscar_combine_in {V} (idx : list string) (s : list V) (t : string)
    (v : V) :
  buscar t (combine idx s) = Some v -> In v s.
Proof.
  revert s; induction idx as [|k idx IH]; intros [|x s]; simpl;
    try discriminate.
  destruct (String.eqb t k).
  - intros E. injection E as <-. left. reflexivity.
  - intros H. right. apply IH, H.
Qed.

Lemma idxmax_maximo (idx : list string) (s : Serie) (t : string) (v : float) :
  NoDup idx -> idxmax idx s = Some t ->
  buscar t (combine idx s) = Some v ->
  forall t' v', buscar t' (combine idx s) = Some v' -> (v <? v') = false.
Proof.
  intros N Hi Hv t' v' Hv'. unfold idxmax in Hi.
  destruct (forallb is_nan s); [discriminate|].
  set (f := fun x : float => if is_nan x then neg_infinity else x) in *.
  rewrite (buscar_combine_nth idx s _ t N Hi) in Hv.
  apply buscar_combine_in in Hv'.
  destruct (v <? v') eqn:E; [|reflexivity].
  pose proof (ltb_notna _ _ E) as Nv. pose proof (ltb_notna_r _ _ E) as Nv'.
  unfold notna in Nv, Nv'. apply negb_true_iff in Nv, Nv'.
  pose proof (argmax_spec (map f s) (f v') (in_map f _ _ Hv')) as H.
  rewrite (nth_error_nth (map f s) _ nan (map_nth_error f _ _ Hv)) in H.
  unfold f in H. rewrite Nv, Nv' in H. congruence.
Qed.

Lemma idxmin_minimo (idx : list string) (s : Serie) (t : string) (v : float) :
  NoDup idx -> idxmin idx s = Some t ->
  buscar t (combine idx s) = Some v ->
  forall t' v', buscar t' (combine idx s) = Some v' -> (v' <? v) = false.
Proof.
  intros N Hi Hv t' v' Hv'. unfold idxmin in Hi.
  destruct (forallb is_nan s); [discriminate|].
  set (f := fun x : float => if is_nan x then infinity else x) in *.
  rewrite (buscar_combine_nth idx s _ t N Hi) in Hv.
  apply buscar_combine_in in Hv'.
  destruct (v' <? v) eqn:E; [|reflexivity].
  pose proof (ltb_notna _ _ E) as Nv'. pose proof (ltb_notna_r _ _ E) as Nv.
  unfold notna in Nv, Nv'. apply negb_true_iff in Nv, Nv'.
  pose proof (argmin_spec (map f s) (f v') (in_map f _ _ Hv')) as H.
  rewrite (nth_error_nth (map f s) _ nan (map_nth_error f _ _ Hv)) in H.
  unfold f in H. rewrite Nv, Nv' in H. congruence.
Qed.

Lemma tarjeta_idxmax (metricas : DataFrame string) (columna t : string)
    (v : float) :
  NoDup (index metricas) ->
  tarjeta idxmax metricas columna = Some (t, v) ->
  loc metricas t columna = Some v /\
  forall t' v', loc metricas t' columna = Some v' -> (v <? v') = false.
Proof.
  intros N. unfold tarjeta, loc.
  destruct (buscar columna (columns metricas)) as [s|]; [|discriminate].
  destruct (idxmax (index metricas) s) as [e|] eqn:Hi; [|discriminate].
  destruct (buscar e (combine (index metricas) s)) as [w|] eqn:Hw;
    [|discriminate].
  intros E. injection E as <- <-. split; [exact Hw|].
  apply (idxmax_maximo _ _ _ _ N Hi Hw).
Qed.

Lemma tarjeta_idxmin (metricas : DataFrame string) (columna t : string)
    (v : float) :
  NoDup (index metricas) ->
  tarjeta idxmin metricas columna = Some (t, v) ->
  loc metricas t columna = Some v /\
  forall t' v', loc metricas t' columna = Some v' -> (v' <? v) = false.
Proof.
  intros N. unfold tarjeta, loc.
  destruct (buscar columna (columns metricas)) as [s|]; [|discriminate].
  destruct (idxmin (index metricas) s) as [e|] eqn:Hi; [|discriminate].
  destruct (buscar e (combine (index metricas) s)) as [w|] eqn:Hw;
    [|discriminate].
  intros E. injection E as <- <-. split; [exact Hw|].
  apply (idxmin_minimo _ _ _ _ N Hi Hw).
Qed.

(** X8.  When the summary cards are produced for a table of distinct
    instruments, the best performer shown has a return that no instrument
    of the metrics table exceeds, the worst performer one that none falls
    below, and the best Sharpe ratio is exceeded by none; each card shows
    the value the table holds for the instrument it names, and the two
    counters are the numbers of columns and of rows of the price table. *)
Theorem resumen_mejor_y_peor (datos : DataFrame Z)
    (metricas : DataFrame string) (retornos : DataFrame Z) (res : Resumen) :
  NoDup (nombres datos) ->
  calcular_metricas datos = Ok (metricas, retornos) ->
  resumen_ejecutivo datos metricas = Some res ->
  activos res = ncols datos /\
  dias_analisis res = nrows datos /\
  (loc metricas (fst (mejor res)) "Rendimiento (%)" = Some (snd (mejor res)) /\
   forall t v, loc metricas t "Rendimiento (%)" = Some v ->
     (snd (mejor res) <? v) = false) /\
  (loc metricas (fst (peor res)) "Rendimiento (%)" = Some (snd (peor res)) /\
   forall t v, loc metricas t "Rendimiento (%)" = Some v ->
     (v <? snd (peor res)) = false) /\
  (loc metricas (fst (mejor_sharpe res)) "Sharpe"
   = Some (snd (mejor_sharpe res)) /\
   forall t v, loc metricas t "Sharpe" = Some v ->
     (snd (mejor_sharpe res) <? v) = false).
Proof.
  intros N Hc Hr.
  assert (Ni : NoDup (index metricas)).
  { apply calcular_metricas_inv in Hc as [_ [_ ->]]. exact N. }
  unfold resumen_ejecutivo in Hr.
  destruct (tarjeta idxmax metricas "Rendimiento (%)") as [[t1 v1]|] eqn:E1;
    [|discriminate].
  destruct (tarjeta idxmin metricas "Rendimiento (%)") as [[t2 v2]|] eqn:E2;
    [|discriminate].
  destruct (tarjeta idxmax metricas "Sharpe") as [[t3 v3]|] eqn:E3;
    [|discriminate].
  injection Hr as <-. cbn [activos dias_analisis mejor peor mejor_sharpe fst snd].
  repeat split; try reflexivity.
  - apply (tarjeta_idxmax _ _ _ _ Ni E1).
  - apply (tarjeta_idxmax _ _ _ _ Ni E1).
  - apply (tarjeta_idxmin _ _ _ _ Ni E2).
  - apply (tarjeta_idxmin _ _ _ _ Ni E2).
  - apply (tarjeta_idxmax _ _ _ _ Ni E3).
  - apply (tarjeta_idxmax _ _ _ _ Ni E3).
Qed.

End Mejor_y_peor.

(** Three instruments over four days: AAPL gains 5 %, MSFT 1 %, and GOOGL
    loses 4 %. *)
Lemma resumen_mejor_y_peor_witness :
  exists metricas retornos res,
    calcular_metricas precios_tres_activos = Ok (metricas, retornos) /\
    resumen_ejecutivo precios_tres_activos metricas = Some res /\
    mejor res = ("AAPL"%string, 5) /\
    peor res = ("GOOGL"%string, -4) /\
    fst (mejor_sharpe res) = "AAPL"%string /\
    loc metricas "MSFT" "Rendimiento (%)" = Some 1 /\
    (5 <? 1) = false /\ (1 <? -4) = false.
Proof.
  assert (Hn : (1 <= nrows precios_tres_activos)%nat) by (vm_compute; lia).
  pose proof (calcular_metricas_ok _ Hn) as Hc.
  assert (Hr : exists res,
            resumen_ejecutivo precios_tres_activos
              (round_df (metricas_crudas precios_tres_activos)) = Some res /\
            mejor res = ("AAPL"%string, 5) /\
            peor res = ("GOOGL"%string, -4) /\
            fst (mejor_sharpe res) = "AAPL"%string).
  { eexists. split; [vm_compute; reflexivity|]. repeat split. }
  destruct Hr as [res [Hr [Hm [Hp Hs]]]].
  assert (N : NoDup (nombres precios_tres_activos)).
  { repeat constructor; simpl; intuition discriminate. }
  destruct (resumen_mejor_y_peor _ _ _ res N Hc Hr)
    as [_ [_ [[_ Hmax] [[_ Hmin] _]]]].
  assert (Hl : loc (round_df (metricas_crudas precios_tres_activos))
                 "MSFT" "Rendimiento (%)" = Some 1)
    by (vm_compute; reflexivity).
  specialize (Hmax _ _ Hl). rewrite Hm in Hmax.
  specialize (Hmin _ _ Hl). rewrite Hp in Hmin.
  exists (round_df (metricas_crudas precios_tres_activos)),
    (dropna (pct_change precios_tres_activos)), res.
  exact (conj Hc (conj Hr (conj Hm (conj Hp (conj Hs
           (conj Hl (conj Hmax Hmin))))))).
Defined.

(** ** The two quadrant lists *)

Section Cuadrantes.

Lemma in_filtrar_iff {A} (m : list bool) (l : list A) (x : A) :
  In x (filtrar m l) <->
  exists j, nth_error l j = Some x /\ nth_error m j = Some true.
Proof.
  revert l; induction m as [|b m IH]; intros [|y l]; simpl.
  - split; [intros []|]. intros [[|j] [H _]]; discriminate.
  - split; [intros []|]. intros [[|j] [_ H]]; discriminate.
  - split; [intros []|]. intros [[|j] [H _]]; discriminate.
  - split.
    + intros H.
      assert (H' : (b = true /\ y = x) \/ In x (filtrar m l)).
      { destruct b; [destruct H as [H|H]|]; auto. }
      destruct H' as [[-> ->]|H'].
      * exists 0%nat. split; reflexivity.
      * apply IH in H' as [j [H1 H2]]. exists (S j). split; assumption.
    + intros [[|j] [H1 H2]]; simpl in H1, H2.
      * injection H1 as ->. injection H2 as ->. left. reflexivity.
      * assert (H' : In x (filtrar m l)) by (apply IH; eauto).
        destruct b; [right|]; exact H'.
Qed.

Lemma nth_error_map2_andb (p q : float -> bool) (a b : Serie) (j : nat) :
  nth_error (map2 andb (map p a) (map q b)) j = Some true <->
  exists x y, nth_error a j = Some x /\ nth_error b j = Some y /\
              p x = true /\ q y = true.
Proof.
  revert b j; induction a as [|x a IH]; intros [|y b] [|j]; simpl;
    try (split; [discriminate | intros [? [? [? [? _]]]]; discriminate]).
  - split.
    + intros H. injection H as H. apply andb_true_iff in H as [H1 H2].
      exists x, y. auto.
    + intros [x' [y' [E1 [E2 [H1 H2]]]]].
      injection E1 as <-. injection E2 as <-. rewrite H1, H2. reflexivity.
  - apply IH.
Qed.

Lemma buscar_combine_pos {V} (idx : list string) (s : list V) (t : string)
    (v : V) :
  buscar t (combine idx s) = Some v ->
  exists j, nth_error idx j = Some t /\ nth_error s j = Some v.
Proof.
  revert s; induction idx as [|k idx IH]; intros [|x s]; simpl;
    try discriminate.
  destruct (String.eqb_spec t k) as [->|_].
  - intros E. injection E as <-. exists 0%nat. split; reflexivity.
  - intros H. apply IH in H as [j [H1 H2]]. exists (S j). split; assumption.
Qed.

(** Which labels a pair of conditions on two columns keeps. *)
Lemma en_cuadrante (idx : list string) (p q : float -> bool) (a b : Serie)
    (t : string) :
  NoDup idx ->
  In t (filtrar (map2 andb (map p a) (map q b)) idx) <->
  exists x y, buscar t (combine idx a) = Some x /\
              buscar t (combine idx b) = Some y /\
              p x = true /\ q y = true.
Proof.
  intros N. rewrite in_filtrar_iff. split.
  - intros [j [Hj Hm]]. apply nth_error_map2_andb in Hm
      as [x [y [Hx [Hy [Hp Hq]]]]].
    exists x, y. rewrite !(buscar_combine_nth idx _ j t N Hj). auto.
  - intros [x [y [Hx [Hy [Hp Hq]]]]].
    apply buscar_combine_pos in Hx as [j [Hj Hx]].
    rewrite (buscar_combine_nth idx _ j t N Hj) in Hy.
    exists j. split; [exact Hj|]. apply nth_error_map2_andb.
    exists x, y. auto.
Qed.

(** X9.  For a metrics table with distinct instruments, an instrument is
    listed as ideal exactly when its return is above the median return and
    its annualized volatility is below the median volatility, and as to
    avoid exactly when its return is below and its volatility above; no
    instrument is in both lists. *)
Theorem cuadrantes_criterio (metricas : DataFrame string)
    (ideal evitar : list string) :
  NoDup (index metricas) ->
  cuadrantes metricas = Some (ideal, evitar) ->
  exists rend vol,
    buscar "Rendimiento (%)" (columns metricas) = Some rend /\
    buscar "Volatilidad Anualizada (%)" (columns metricas) = Some vol /\
    (forall t, In t ideal <->
       exists r v,
         loc metricas t "Rendimiento (%)" = Some r /\
         loc metricas t "Volatilidad Anualizada (%)" = Some v /\
         (median rend <? r) = true /\ (v <? median vol) = true) /\
    (forall t, In t evitar <->
       exists r v,
         loc metricas t "Rendimiento (%)" = Some r /\
         loc metricas t "Volatilidad Anualizada (%)" = Some v /\
         (r <? median rend) = true /\ (median vol <? v) = true) /\
    (forall t, In t ideal -> ~ In t evitar).
Proof.
  intros N. unfold cuadrantes, loc.
  destruct (buscar "Volatilidad Anualizada (%)" (columns metricas))
    as [vol|]; [|discriminate].
  destruct (buscar "Rendimiento (%)" (columns metricas)) as [rend|];
    [|discriminate].
  intros E. injection E as <- <-. exists rend, vol.
  split; [reflexivity|]. split; [reflexivity|].
  pose proof (fun t => en_cuadrante (index metricas)
                (fun x => median rend <? x) (fun x => x <? median vol)
                rend vol t N) as Hi.
  pose proof (fun t => en_cuadrante (index metricas)
                (fun x => x <? median rend) (fun x => median vol <? x)
                rend vol t N) as He.
  split; [exact Hi|]. split; [exact He|].
  intros t H1 H2.
  apply Hi in H1 as [r [v [Hr [Hv [H1 _]]]]].
  apply He in H2 as [r' [v' [Hr' [_ [H2 _]]]]].
  rewrite Hr in Hr'. injection Hr' as <-.
  rewrite (ltb_asym _ _ H1) in H2. discriminate.
Qed.

End Cuadrantes.

(** Three instruments: GOOGL loses the most and moves the most, and no
    instrument is both above the median return and below the median
    volatility. *)
Lemma cuadrantes_criterio_witness :
  cuadrantes (round_df (metricas_crudas precios_tres_activos))
  = Some ([], ["GOOGL"%string]) /\
  exists r v,
    loc (round_df (metricas_crudas precios_tres_activos))
      "GOOGL" "Rendimiento (%)" = Some r /\
    loc (round_df (metricas_crudas precios_tres_activos))
      "GOOGL" "Volatilidad Anualizada (%)" = Some v /\
    (r <? 1) = true /\ (v <? 0) = false.
Proof.
  assert (Hc : cuadrantes (round_df (metricas_crudas precios_tres_activos))
               = Some ([], ["GOOGL"%string])) by (vm_compute; reflexivity).
  split; [exact Hc|].
  assert (N : NoDup (index (round_df (metricas_crudas precios_tres_activos)))).
  { repeat constructor; simpl; intuition discriminate. }
  destruct (cuadrantes_criterio _ _ _ N Hc)
    as [rend [vol [Hr [Hv [_ [He _]]]]]].
  destruct (proj1 (He "GOOGL"%string) (or_introl eq_refl))
    as [r [v [H1 [H2 [H3 H4]]]]].
  exists r, v. split; [exact H1|]. split; [exact H2|].
  assert (Em : median rend = 1).
  { vm_compute in Hr. injection Hr as <-. vm_compute. reflexivity. }
  rewrite Em in H3. split; [exact H3|].
  destruct (v <? 0) eqn:E; [|reflexivity].
  assert (Ev : (0 <? median vol) = true).
  { vm_compute in Hv. injection Hv as <-. vm_compute. reflexivity. }
  rewrite (ltb_asym _ _ (ltb_trans _ _ _ E Ev)) in H4. discriminate.
Defined.

(** ** The detail cards and the metrics table *)

Section Detalle.

Lemma map2_map_map {A B C D} (f : B -> C -> D) (g : A -> B) (h : A -> C)
    (l : list A) :
  map2 f (map g l) (map h l) = map (fun x => f (g x) (h x)) l.
Proof. induction l; simpl; congruence. Qed.

(** The return column holds, for each instrument, the change from its first
    to its last close. *)
Lemma loc_rendimiento (datos : DataFrame Z) (t : string) :
  loc (metricas_crudas datos) t "Rendimiento (%)"
  = option_map (fun c => (last c nan / hd nan c - 1) * 100)
      (buscar t (columns datos)).
Proof.
  unfold loc.
  change (buscar "Rendimiento (%)" (columns (metricas_crudas datos)))
    with (Some (map2 (fun f i => (f / i - 1) * 100)
                  (agg (fun c => last c nan) datos)
                  (agg (fun c => hd nan c) datos))).
  cbn iota. unfold agg. rewrite map2_map_map.
  apply (buscar_combine_agg (fun c => (last c nan / hd nan c - 1) * 100)).
Qed.


End Detalle.


(** ** Shape of the metrics table *)

Section Forma.

Lemma buscar_combine_some {V} (idx : list string) (s : list V) (t : string) :
  In t idx -> (length idx <= length s)%nat ->
  exists v, buscar t (combine idx s) = Some v.
Proof.
  revert s; induction idx as [|k idx IH]; intros s Hin Hl; [destruct Hin|].
  destruct s as [|x s]; simpl in *; [lia|].
  destruct (String.eqb_spec t k) as [->|Hne]; [eauto|].
  destruct Hin as [->|Hin]; [congruence|]. apply IH; [exact Hin | lia].
Qed.

Lemma metricas_columnas_largo (datos : DataFrame Z) (c : string * Serie) :
  In c (columns (round_df (metricas_crudas datos))) ->
  length (snd c) = ncols datos.
Proof.
  unfold round_df, metricas_crudas, metricas_sin_redondear, agg, ncols,
    dropna, pct_change, por_columna.
  cbn [columns map fst snd In].
  intros H.
  repeat (destruct H as [<-|H]; [cbn [snd];
    repeat rewrite ?length_map, ?length_map2; lia|]).
  destruct H.
Qed.

(** X11.  The metrics table has one row per instrument of the price table,
    in the same order, and the eleven metric columns in the order the
    function builds them, each with one value per instrument; so every
    instrument has a value, possibly NaN, for every metric. *)
Theorem metricas_una_fila_por_activo (datos : DataFrame Z) :
  (1 <= nrows datos)%nat ->
  exists metricas retornos,
    calcular_metricas datos = Ok (metricas, retornos) /\
    index metricas = nombres datos /\
    nombres metricas
    = ["Precio Inicial"; "Precio Final"; "Rendimiento (%)";
       "Volatilidad Diaria (%)"; "Volatilidad Anualizada (%)"; "Sharpe";
       "Sortino"; "VaR 5% (%)"; "Max Retorno (%)"; "Min Retorno (%)";
       "Max Drawdown (%)"]%string /\
    bien_formada metricas = true /\
    forall t columna,
      In t (nombres datos) -> In columna (nombres metricas) ->
      exists v, loc metricas t columna = Some v.
Proof.
  intros Hn. tabla_devuelta Hn.
  split; [reflexivity|]. split; [reflexivity|].
  assert (Hl : length (nombres datos) = ncols datos)
    by (unfold nombres, ncols; apply length_map).
  split.
  - unfold bien_formada. apply forallb_forall. intros c Hc.
    apply Nat.eqb_eq. rewrite (metricas_columnas_largo datos c Hc).
    symmetry. exact Hl.
  - intros t columna Ht Hc.
    destruct (buscar_en_nombres columna _ Hc) as [s [Hs Hin]].
    unfold loc. rewrite Hs.
    apply buscar_combine_some; [exact Ht|].
    pose proof (metricas_columnas_largo datos _ Hin) as E. simpl in E.
    change (index (round_df (metricas_crudas datos))) with (nombres datos).
    lia.
Qed.

End Forma.

(** Three instruments, eleven metrics: 33 cells, every one readable. *)
Lemma metricas_una_fila_por_activo_witness :
  exists metricas retornos,
    calcular_metricas precios_tres_activos = Ok (metricas, retornos) /\
    index metricas = ["AAPL"; "MSFT"; "GOOGL"]%string /\
    (ncols metricas = 11)%nat /\
    exists v, loc metricas "GOOGL" "VaR 5% (%)" = Some v.
Proof.
  destruct (metricas_una_fila_por_activo precios_tres_activos)
    as [m [r [Hc [Hi [Hn [_ Hv]]]]]].
  - vm_compute. lia.
  - exists m, r. split; [exact Hc|]. split; [exact Hi|]. split.
    + unfold ncols. rewrite <- (length_map fst). fold (nombres m).
      rewrite Hn. reflexivity.
    + apply Hv.
      * simpl. auto.
      * rewrite Hn. simpl. auto 12.
Defined.

(** ** An instrument whose close never changes *)

Section Precio_constante.

Lemma pct_desde_repeat (p : float) (k : nat) :
  finito_no_nulo p = true -> pct_desde p (repeat p k) = repeat 0 k.
Proof.
  intros F. induction k as [|k IH]; simpl; [reflexivity|].
  rewrite IH, (div_diag p F). reflexivity.
Qed.

Lemma last_repeat (p d : float) (k : nat) : last (repeat p (S k)) d = p.
Proof. induction k as [|k IH]; [reflexivity|]. exact IH. Qed.

Lemma cumprod_desde_unos (k : nat) : cumprod_desde 1 (repeat 1 k) = repeat 1 k.
Proof. induction k as [|k IH]; simpl; [reflexivity|]. f_equal. exact IH. Qed.

Lemma cumulative_ceros (k : nat) : cumulative (repeat 0 k) = repeat 1 k.
Proof.
  unfold cumulative. rewrite map_repeat.
  destruct k; simpl; [reflexivity|]. f_equal. apply cumprod_desde_unos.
Qed.

Lemma unos_finitos (k : nat) : forallb finito_no_nulo (repeat 1 k) = true.
Proof. induction k; simpl; auto. Qed.

Lemma unos_no_decreciente (k : nat) : no_decreciente (repeat 1 k) = true.
Proof.
  induction k as [|k IH]; [reflexivity|].
  destruct k; [reflexivity|]. simpl in *. exact IH.
Qed.

Lemma ceros_is_zero (k : nat) : forallb is_zero (repeat 0 k) = true.
Proof. induction k; simpl; auto. Qed.

Lemma sub_cero_o_nan_r (a x : float) :
  cero_o_nan a = true -> is_zero x = true -> cero_o_nan (a - x) = true.
Proof.
  rewrite is_zero_spec, !cero_o_nan_spec, sub_spec.
  destruct (Prim2SF x) as [s|s| |s k e]; try discriminate.
  destruct (Prim2SF a) as [s'|s'| |s' k' e']; try discriminate;
    destruct s; try destruct s'; reflexivity.
Qed.

Lemma div_cero_o_nan (x y : float) :
  cero_o_nan x = true -> cero_o_nan (x / y) = true.
Proof.
  rewrite !cero_o_nan_spec, div_spec.
  destruct (Prim2SF x) as [s|s| |s k e]; try discriminate;
    destruct (Prim2SF y) as [s'|s'| |s' k' e']; reflexivity.
Qed.

Lemma sqrt_cero_o_nan (x : float) :
  cero_o_nan x = true -> cero_o_nan (PrimFloat.sqrt x) = true.
Proof.
  rewrite !cero_o_nan_spec, sqrt_spec.
  destruct (Prim2SF x) as [s|s| |s k e]; try discriminate; reflexivity.
Qed.

Lemma div_ceros_nan (x y : float) :
  cero_o_nan x = true -> cero_o_nan y = true -> is_nan (x / y) = true.
Proof.
  rewrite !cero_o_nan_spec, is_nan_spec, div_spec.
  destruct (Prim2SF x) as [s|s| |s k e]; try discriminate;
    destruct (Prim2SF y) as [s'|s'| |s' k' e']; try discriminate; reflexivity.
Qed.

Lemma fold_add_cero_o_nan (l : Serie) (a : float) :
  cero_o_nan a = true -> forallb cero_o_nan l = true ->
  cero_o_nan (fold_left add l a) = true.
Proof.
  revert a; induction l as [|x l IH]; intros a Ha H; simpl; [exact Ha|].
  simpl in H. apply andb_true_iff in H as [Hx H].
  apply IH; [apply add_cero_o_nan; assumption | exact H].
Qed.

Lemma suma_cero_o_nan (l : Serie) :
  forallb cero_o_nan l = true -> cero_o_nan (suma l) = true.
Proof.
  destruct l as [|x l]; simpl; [reflexivity|].
  intros H. apply andb_true_iff in H as [Hx H].
  apply fold_add_cero_o_nan; assumption.
Qed.

Lemma is_zero_cero_o_nan (l : Serie) :
  forallb is_zero l = true -> forallb cero_o_nan l = true.
Proof.
  induction l as [|x l IH]; simpl; [reflexivity|].
  intros H. apply andb_true_iff in H as [Hx H].
  unfold cero_o_nan at 1. rewrite Hx, (IH H). reflexivity.
Qed.

(** The mean and the deviation of returns that are all zero are zero, or
    missing. *)
Lemma mean_ceros (l : Serie) :
  forallb is_zero l = true -> cero_o_nan (mean l) = true.
Proof.
  intros H. unfold mean. rewrite (validos_ceros l H).
  apply div_cero_o_nan, suma_cero_o_nan, is_zero_cero_o_nan, H.
Qed.

Lemma std_ceros (l : Serie) :
  forallb is_zero l = true -> cero_o_nan (std l) = true.
Proof.
  intros H. unfold std, var. rewrite (validos_ceros l H).
  destruct (length l <=? 1)%nat; [reflexivity|].
  apply sqrt_cero_o_nan, div_cero_o_nan, suma_cero_o_nan.
  rewrite forallb_forall. intros v Hv.
  apply in_map_iff in Hv as [x [<- Hx]].
  rewrite forallb_forall in H.
  apply mul_cero_o_nan, sub_cero_o_nan_r; [|apply H, Hx].
  apply div_cero_o_nan, suma_cero_o_nan, is_zero_cero_o_nan.
  rewrite forallb_forall. exact H.
Qed.

Lemma sharpe_ceros (r : Serie) :
  forallb is_zero r = true -> is_nan (sharpe r) = true.
Proof.
  intros H. unfold sharpe.
  apply mul_nan, div_ceros_nan; [apply mean_ceros | apply std_ceros]; exact H.
Qed.

Lemma sin_negativos_ceros (k : nat) :
  filter (fun x => x <? 0) (repeat 0 k) = [].
Proof. induction k; simpl; auto. Qed.

(** The returns of an instrument whose close is the same finite, non-zero
    value on every day of a table of finite, non-zero prices. *)
Lemma retornos_precio_constante (datos : DataFrame Z) (t : string) (p : float)
    (k : nat) :
  bien_formada datos = true -> nrows datos = S k ->
  todas finito_no_nulo datos = true ->
  buscar t (columns datos) = Some (repeat p (S k)) ->
  finito_no_nulo p = true /\
  buscar t (columns (dropna (pct_change datos))) = Some (repeat 0 k).
Proof.
  intros W En F Hb.
  assert (Fp : finito_no_nulo p = true).
  { unfold todas in F. rewrite forallb_forall in F.
    assert (Hin : In (t, repeat p (S k)) (columns datos)).
    { clear - Hb. induction (columns datos) as [|[k' v] l IH]; simpl in *;
        [discriminate|].
      destruct (String.eqb_spec t k') as [->|_];
        [injection Hb as ->; auto | auto]. }
    specialize (F _ Hin). simpl in F.
    apply andb_true_iff in F as [F _]. exact F. }
  split; [exact Fp|].
  unfold dropna, pct_change, por_columna. cbn [columns index].
  rewrite !(buscar_map_snd _ t), Hb. cbn [option_map].
  change (filas_completas _)
    with (mascara_pct (nrows datos) (columns datos)).
  unfold bien_formada in W. unfold todas in F. rewrite En in *.
  destruct (columns datos) as [|c cols]; [discriminate|].
  rewrite (mascara_pct_finitos k c cols W F).
  cbn [repeat pct_change_serie filtrar].
  rewrite (pct_desde_repeat p k Fp).
  rewrite <- (repeat_length 0 k) at 1. rewrite filtrar_repeat_true.
  reflexivity.
Qed.

(** X12.  In a rectangular table of finite, non-zero prices over at least
    two days, an instrument whose close is the same on every day has daily
    returns that are all exactly 0, a return of 0 and a maximum drawdown
    equal to 0, and no Sharpe nor Sortino ratio (NaN). *)
Theorem precio_constante (datos : DataFrame Z) (t : string) (p : float) :
  bien_formada datos = true ->
  (2 <= nrows datos)%nat ->
  todas finito_no_nulo datos = true ->
  buscar t (columns datos) = Some (repeat p (nrows datos)) ->
  exists metricas retornos,
    calcular_metricas datos = Ok (metricas, retornos) /\
    buscar t (columns retornos) = Some (repeat 0 (nrows datos - 1)) /\
    loc metricas t "Rendimiento (%)" = Some 0 /\
    (exists v, loc metricas t "Max Drawdown (%)" = Some v /\
               (v =? 0) = true) /\
    (exists v, loc metricas t "Sharpe" = Some v /\ is_nan v = true) /\
    (exists v, loc metricas t "Sortino" = Some v /\ is_nan v = true).
Proof.
  intros W Hn F Hb.
  assert (H1 : (1 <= nrows datos)%nat) by lia.
  tabla_devuelta H1.
  destruct (nrows datos) as [|[|k]] eqn:En; try lia.
  destruct (retornos_precio_constante datos t p (S k) W En F Hb) as [Fp Hr].
  cbn [Nat.sub]. split; [exact Hr|]. split.
  - rewrite loc_round_df, loc_rendimiento, Hb. cbn [option_map].
    rewrite last_repeat. cbn [repeat hd]. rewrite (div_diag p Fp).
    reflexivity.
  - split; [|split].
    + destruct (loc_metrica datos "Max Drawdown (%)" t
                  (fun r => min (drawdown r) * 100) eq_refl) as [_ H].
      rewrite Hr in H. eexists. split; [exact H|].
      apply max_drawdown_signo.
      * discriminate.
      * rewrite cumulative_ceros. apply unos_finitos.
      * rewrite cumulative_ceros. apply unos_no_decreciente.
    + destruct (loc_metrica datos "Sharpe" t sharpe eq_refl) as [_ H].
      rewrite Hr in H. eexists. split; [exact H|].
      apply round2_nan, sharpe_ceros, ceros_is_zero.
    + destruct (loc_metrica datos "Sortino" t sortino eq_refl) as [_ H].
      rewrite Hr in H. eexists. split; [exact H|].
      apply round2_nan, sortino_pocos.
      rewrite sin_negativos_ceros. simpl. lia.
Qed.

End Precio_constante.

(** Instrument B closes at 50 on each of four days. *)
Lemma precio_constante_witness :
  exists metricas retornos,
    calcular_metricas precios_con_plano = Ok (metricas, retornos) /\
    buscar "B" (columns retornos) = Some [0; 0; 0] /\
    loc metricas "B" "Rendimiento (%)" = Some 0 /\
    (exists v, loc metricas "B" "Max Drawdown (%)" = Some v /\
               (v =? 0) = true) /\
    (exists v, loc metricas "B" "Sharpe" = Some v /\ is_nan v = true) /\
    (exists v, loc metricas "B" "Sortino" = Some v /\ is_nan v = true).
Proof.
  apply (precio_constante precios_con_plano "B" 50).
  - reflexivity.
  - vm_compute. lia.
  - reflexivity.
  - reflexivity.
Defined.

(** ** From the sidebar to the download *)

Section Panel_lateral.

Variable yf : string -> Respuesta.

Lemma in_multiselect (options : list string) (elegidos : list nat)
    (o : string) :
  In o (multiselect options elegidos) <->
  exists i, In i elegidos /\ nth_error options i = Some o.
Proof.
  unfold multiselect. rewrite in_flat_map. split.
  - intros [i [Hi Ho]]. exists i. split; [exact Hi|].
    destruct (nth_error options i) as [o'|]; [|destruct Ho].
    destruct Ho as [->|[]]. reflexivity.
  - intros [i [Hi Ho]]. exists i. split; [exact Hi|].
    rewrite Ho. left. reflexivity.
Qed.

(** Distinct options picked at distinct positions are distinct. *)
Lemma multiselect_NoDup (options : list string) (elegidos : list nat) :
  NoDup options -> NoDup elegidos -> NoDup (multiselect options elegidos).
Proof.
  intros No. induction elegidos as [|i el IH]; intros Ne.
  - constructor.
  - inversion Ne as [|? ? Hi Ne']; subst.
    change (multiselect options (i :: el))
      with ((match nth_error options i with
             | Some o => [o]
             | None => []
             end) ++ multiselect options el).
    destruct (nth_error options i) as [o|] eqn:E; simpl; [|auto].
    constructor; [|auto].
    intros Hin. apply in_multiselect in Hin as [j [Hj Ho]].
    assert (i = j).
    { apply (proj1 (NoDup_nth_error options) No).
      - apply nth_error_Some. congruence.
      - congruence. }
    subst. contradiction.
Qed.

Lemma activos_disponibles_NoDup (categoria : string) (options : list string) :
  In (categoria, options) activos_disponibles ->
  NoDup options /\ seleccion_por_defecto options = multiselect options [0; 1; 2]%nat.
Proof.
  intros H. simpl in H.
  destruct H as [H|[H|[H|[H|[]]]]]; injection H as <- <-;
    (split; [apply sin_repetidos_NoDup|]; reflexivity).
Qed.

(** X13.  Whatever the user picks in the sidebar, each option at most once,
    the selection holds distinct tickers of the chosen category, and the
    download then gives one column per selected ticker whose fetch succeeds,
    in the order selected, and one warning per ticker whose fetch fails.
    The default selection is the first three tickers of the category. *)
Theorem seleccion_del_panel (categoria : string) (options : list string)
    (elegidos : list nat) :
  In (categoria, options) activos_disponibles ->
  NoDup elegidos ->
  let activos_seleccionados := multiselect options elegidos in
  NoDup activos_seleccionados /\
  (forall t, In t activos_seleccionados -> In t options) /\
  nombres (fst (descargar_datos yf activos_seleccionados))
  = filter (fun t => negb (falla yf t)) activos_seleccionados /\
  snd (descargar_datos yf activos_seleccionados)
  = map (aviso_de yf) (filter (falla yf) activos_seleccionados) /\
  seleccion_por_defecto options = multiselect options [0; 1; 2]%nat.
Proof.
  intros Hc Ne. cbv zeta.
  destruct (activos_disponibles_NoDup _ _ Hc) as [No Hd].
  pose proof (multiselect_NoDup options elegidos No Ne) as N.
  split; [exact N|]. split.
  - intros t Ht. apply in_multiselect in Ht as [i [_ Hi]].
    eapply nth_error_In, Hi.
  - rewrite descargar_datos_ensamblar. cbn [fst snd].
    rewrite nombres_dropna.
    destruct (ensamblar_nombres_y_avisos yf _
                (proj2 (sin_repetidos_NoDup _) N)) as [Hn He].
    auto.
Qed.

End Panel_lateral.

(** The default selection of the category of Argentine shares, with a
    source that answers for two of the three tickers. *)
Lemma seleccion_del_panel_witness :
  multiselect ["GGAL.BA"; "YPF"; "GLOB"; "PAM.BA"; "LOMA.BA"]%string
    [0; 1; 2]%nat
  = ["GGAL.BA"; "YPF"; "GLOB"]%string /\
  nombres (fst (descargar_datos yf_uno_falla
                  ["GGAL.BA"; "YPF"; "GLOB"]%string))
  = ["GGAL.BA"]%string /\
  snd (descargar_datos yf_uno_falla ["GGAL.BA"; "YPF"; "GLOB"]%string)
  = ["YPF: timed out"; "GLOB: timed out"]%string.
Proof.
  assert (Hc : In ("Acciones Argentina"%string,
                   ["GGAL.BA"; "YPF"; "GLOB"; "PAM.BA"; "LOMA.BA"]%string)
                  activos_disponibles) by (left; reflexivity).
  assert (Ne : NoDup [0; 1; 2]%nat).
  { repeat constructor; simpl; intuition discriminate. }
  destruct (seleccion_del_panel yf_uno_falla _ _ _ Hc Ne)
    as [_ [_ [Hn [He _]]]].
  split; [reflexivity|].
  change (multiselect ["GGAL.BA"; "YPF"; "GLOB"; "PAM.BA"; "LOMA.BA"]%string
            [0; 1; 2]%nat)
    with ["GGAL.BA"; "YPF"; "GLOB"]%string in Hn, He.
  rewrite Hn, He. split; reflexivity.
Defined.

(** ** The returns, date by date *)

Section Retornos_dia_a_dia.

Lemma nth_pct_desde (t : Serie) (x : float) (i : nat) :
  (i < length t)%nat ->
  nth i (pct_desde x t) nan = nth i t nan / nth i (x :: t) nan - 1.
Proof.
  revert x i; induction t as [|y t IH]; intros x i Hi; simpl in Hi; [lia|].
  destruct i as [|i]; [reflexivity|].
  cbn [pct_desde nth]. rewrite IH by lia. reflexivity.
Qed.

Lemma filtrar_todas {A} (l : list A) (k : nat) :
  length l = k -> filtrar (repeat true k) l = l.
Proof. intros <-. apply filtrar_repeat_true. Qed.

(** X14.  For a rectangular table of finite, non-zero prices with at least
    one instrument and one day, the returns table has the dates of the price
    table after the first, and holds for each instrument and each of those
    dates the close of that date over the close of the date before, minus
    one. *)
Theorem retornos_dia_a_dia (datos : DataFrame Z) :
  bien_formada datos = true ->
  (1 <= nrows datos)%nat -> (1 <= ncols datos)%nat ->
  todas finito_no_nulo datos = true ->
  exists metricas retornos,
    calcular_metricas datos = Ok (metricas, retornos) /\
    index retornos = tl (index datos) /\
    forall t c, buscar t (columns datos) = Some c ->
      exists r,
        buscar t (columns retornos) = Some r /\
        length r = (nrows datos - 1)%nat /\
        forall i, (S i < nrows datos)%nat ->
          nth i r nan = nth (S i) c nan / nth i c nan - 1.
Proof.
  intros W Hn Hc F. tabla_devuelta Hn.
  unfold dropna, pct_change, por_columna. cbn [columns index].
  change (filas_completas _)
    with (mascara_pct (nrows datos) (columns datos)).
  unfold bien_formada in W. unfold todas in F. unfold ncols in Hc.
  destruct (nrows datos) as [|k] eqn:En; [lia|].
  destruct (columns datos) as [|c0 cols] eqn:Ec; [simpl in Hc; lia|].
  rewrite (mascara_pct_finitos k c0 cols W F).
  split.
  - unfold nrows in En. destruct (index datos) as [|d idx]; [discriminate|].
    cbn [filtrar tl]. apply filtrar_todas. simpl in En. lia.
  - intros t c Hb. rewrite !(buscar_map_snd _ t), Hb. cbn [option_map].
    assert (Hl : length c = S k).
    { rewrite forallb_forall in W. apply Nat.eqb_eq.
      apply (W (t, c)). clear - Hb.
      induction (c0 :: cols) as [|[k' v] l IH]; simpl in *; [discriminate|].
      destruct (String.eqb_spec t k') as [->|_];
        [injection Hb as ->; auto | auto]. }
    destruct c as [|x c]; [discriminate|]. simpl in Hl.
    cbn [pct_change_serie filtrar].
    rewrite filtrar_todas by (rewrite length_pct_desde; lia).
    eexists. split; [reflexivity|]. split.
    + rewrite length_pct_desde. lia.
    + intros i Hi. rewrite nth_pct_desde by lia. reflexivity.
Qed.

End Retornos_dia_a_dia.

(** The closes 100, 102, 101, 105 give three returns. *)
Lemma retornos_dia_a_dia_witness :
  exists metricas retornos,
    calcular_metricas precios_100_102_101_105 = Ok (metricas, retornos) /\
    index retornos = [2; 3; 4]%Z /\
    exists r,
      buscar "A" (columns retornos) = Some r /\
      length r = 3%nat /\
      nth 1 r nan = 101 / 102 - 1.
Proof.
  destruct (retornos_dia_a_dia precios_100_102_101_105)
    as [m [r [Hc [Hi Hv]]]].
  - reflexivity.
  - vm_compute. lia.
  - vm_compute. lia.
  - reflexivity.
  - exists m, r. split; [exact Hc|]. split; [exact Hi|].
    destruct (Hv "A"%string [100; 102; 101; 105] eq_refl)
      as [ret [Hr [Hl Hn]]].
    exists ret. split; [exact Hr|]. split; [exact Hl|].
    apply (Hn 1%nat). vm_compute. lia.
Defined.

(** ** Largest and smallest daily return *)

Section Extremos.

Lemma SFltb_negtrans (a b c : spec_float) :
  b <> S754_nan ->
  SFltb a b = false -> SFltb b c = false -> SFltb a c = false.
Proof.
  unfold SFltb, SFcompare.
  destruct a as [[]|[]| |[] ma ea]; destruct b as [[]|[]| |[] mb eb];
    try congruence; try discriminate;
    destruct c as [[]|[]| |[] mc ec]; try discriminate; try reflexivity;
    intros _;
    casos_compare; simpl; intros; subst; try discriminate; try reflexivity;
    try lia.
Qed.

Lemma ltb_negtrans (a b c : float) :
  notna b = true ->
  (a <? b) = false -> (b <? c) = false -> (a <? c) = false.
Proof.
  unfold notna. rewrite negb_true_iff, !ltb_spec. intros Hb.
  apply SFltb_negtrans. intros E.
  assert (H : is_nan b = true) by (rewrite is_nan_spec, E; reflexivity).
  congruence.
Qed.

Lemma validos_todos (l : Serie) : forallb notna l = true -> validos l = l.
Proof.
  unfold validos. induction l as [|x l IH]; simpl; auto.
  intros H. apply andb_true_iff in H as [-> H]. rewrite (IH H). reflexivity.
Qed.

Lemma fold_max_spec (t pre : Serie) (a : float) :
  forallb notna pre = true -> forallb notna t = true ->
  In a pre -> (forall y, In y pre -> (a <? y) = false) ->
  In (fold_left (fun a y => if y <? a then a else y) t a) (pre ++ t) /\
  forall y, In y (pre ++ t) ->
    (fold_left (fun a y => if y <? a then a else y) t a <? y) = false.
Proof.
  revert pre a; induction t as [|x t IH]; intros pre a Np Nt Ha Hmax; simpl.
  - rewrite app_nil_r. auto.
  - replace (pre ++ x :: t) with ((pre ++ [x]) ++ t)
      by (rewrite <- app_assoc; reflexivity).
    simpl in Nt. apply andb_true_iff in Nt as [Nx Nt].
    assert (Na : notna a = true).
    { rewrite forallb_forall in Np. apply Np, Ha. }
    assert (Np' : forallb notna (pre ++ [x]) = true).
    { rewrite forallb_app, Np. simpl. rewrite Nx. reflexivity. }
    destruct (x <? a) eqn:E; apply IH; try assumption.
    + apply in_app_iff. auto.
    + intros y Hy. apply in_app_iff in Hy as [Hy|[<-|[]]]; auto.
      apply ltb_asym, E.
    + apply in_app_iff. right. left. reflexivity.
    + intros y Hy. apply in_app_iff in Hy as [Hy|[<-|[]]].
      * apply (ltb_negtrans x a y Na E (Hmax y Hy)).
      * apply ltb_irrefl.
Qed.

Lemma fold_min_spec (t pre : Serie) (a : float) :
  forallb notna pre = true -> forallb notna t = true ->
  In a pre -> (forall y, In y pre -> (y <? a) = false) ->
  In (fold_left (fun a y => if a <? y then a else y) t a) (pre ++ t) /\
  forall y, In y (pre ++ t) ->
    (y <? fold_left (fun a y => if a <? y then a else y) t a) = false.
Proof.
  revert pre a; induction t as [|x t IH]; intros pre a Np Nt Ha Hmin; simpl.
  - rewrite app_nil_r. auto.
  - replace (pre ++ x :: t) with ((pre ++ [x]) ++ t)
      by (rewrite <- app_assoc; reflexivity).
    simpl in Nt. apply andb_true_iff in Nt as [Nx Nt].
    assert (Na : notna a = true).
    { rewrite forallb_forall in Np. apply Np, Ha. }
    assert (Np' : forallb notna (pre ++ [x]) = true).
    { rewrite forallb_app, Np. simpl. rewrite Nx. reflexivity. }
    destruct (a <? x) eqn:E; apply IH; try assumption.
    + apply in_app_iff. auto.
    + intros y Hy. apply in_app_iff in Hy as [Hy|[<-|[]]]; auto.
      apply ltb_asym, E.
    + apply in_app_iff. right. left. reflexivity.
    + intros y Hy. apply in_app_iff in Hy as [Hy|[<-|[]]].
      * apply (ltb_negtrans y a x Na (Hmin y Hy) E).
      * apply ltb_irrefl.
Qed.

(** On values without NaN, [max] is an element that none exceeds and [min]
    one that none falls below. *)
Lemma max_spec (l : Serie) :
  forallb notna l = true -> l <> [] ->
  In (max l) l /\ forall y, In y l -> (max l <? y) = false.
Proof.
  intros N Hl. unfold max. rewrite (validos_todos l N).
  destruct l as [|x t]; [congruence|].
  simpl in N. apply andb_true_iff in N as [Nx Nt].
  apply (fold_max_spec t [x] x); simpl; auto.
  - rewrite Nx. reflexivity.
  - intros y [<-|[]]. apply ltb_irrefl.
Qed.

Lemma min_spec (l : Serie) :
  forallb notna l = true -> l <> [] ->
  In (min l) l /\ forall y, In y l -> (y <? min l) = false.
Proof.
  intros N Hl. unfold min. rewrite (validos_todos l N).
  destruct l as [|x t]; [congruence|].
  simpl in N. apply andb_true_iff in N as [Nx Nt].
  apply (fold_min_spec t [x] x); simpl; auto.
  - rewrite Nx. reflexivity.
  - intros y [<-|[]]. apply ltb_irrefl.
Qed.

(** X15.  For an instrument with at least one return, the largest daily
    return shown is one of its daily returns, times 100 and rounded to two
    decimals, and none of its returns exceeds that one; the smallest daily
    return shown is likewise one of its returns, and none is below it. *)
Theorem max_y_min_retorno (datos : DataFrame Z) :
  (1 <= nrows datos)%nat ->
  exists metricas retornos,
    calcular_metricas datos = Ok (metricas, retornos) /\
    forall t r, buscar t (columns retornos) = Some r -> r <> [] ->
      (exists x, In x r /\
         loc metricas t "Max Retorno (%)" = Some (round2 (x * 100)) /\
         forall y, In y r -> (x <? y) = false) /\
      (exists x, In x r /\
         loc metricas t "Min Retorno (%)" = Some (round2 (x * 100)) /\
         forall y, In y r -> (y <? x) = false).
Proof.
  intros Hn. tabla_devuelta Hn.
  intros t r Hr Hne.
  assert (N : forallb notna r = true).
  { pose proof (dropna_sin_faltantes (pct_change datos)) as S.
    unfold sin_faltantes in S. rewrite forallb_forall in S.
    apply (S (t, r)). clear - Hr.
    induction (columns (dropna (pct_change datos))) as [|[k v] l IH];
      simpl in *; [discriminate|].
    destruct (String.eqb_spec t k) as [->|_];
      [injection Hr as ->; auto | auto]. }
  split.
  - destruct (loc_metrica datos "Max Retorno (%)" t
                (fun r => max r * 100) eq_refl) as [_ H].
    rewrite Hr in H. exists (max r).
    destruct (max_spec r N Hne) as [Hin Hmax]. auto.
  - destruct (loc_metrica datos "Min Retorno (%)" t
                (fun r => min r * 100) eq_refl) as [_ H].
    rewrite Hr in H. exists (min r).
    destruct (min_spec r N Hne) as [Hin Hmin]. auto.
Qed.

End Extremos.

(** The closes 100, 102, 101, 105: the best day gains 3.96 %, the worst
    loses 0.98 %. *)
Lemma max_y_min_retorno_witness :
  exists metricas retornos,
    calcular_metricas precios_100_102_101_105 = Ok (metricas, retornos) /\
    buscar "A" (columns retornos)
    = Some [102 / 100 - 1; 101 / 102 - 1; 105 / 101 - 1] /\
    loc metricas "A" "Max Retorno (%)" = Some (396 / 100) /\
    loc metricas "A" "Min Retorno (%)" = Some (-98 / 100) /\
    exists x, In x [102 / 100 - 1; 101 / 102 - 1; 105 / 101 - 1] /\
      loc metricas "A" "Max Retorno (%)" = Some (round2 (x * 100)) /\
      (x <? 102 / 100 - 1) = false.
Proof.
  assert (Hn : (1 <= nrows precios_100_102_101_105)%nat)
    by (vm_compute; lia).
  destruct (max_y_min_retorno precios_100_102_101_105 Hn)
    as [m [r [Hc H]]].
  exists m, r. split; [exact Hc|].
  rewrite (calcular_metricas_ok _ Hn) in Hc. injection Hc as <- <-.
  assert (Hr : buscar "A"
                 (columns (dropna (pct_change precios_100_102_101_105)))
               = Some [102 / 100 - 1; 101 / 102 - 1; 105 / 101 - 1])
    by (vm_compute; reflexivity).
  split; [exact Hr|]. split; [vm_compute; reflexivity|].
  split; [vm_compute; reflexivity|].
  destruct (H _ _ Hr ltac:(discriminate)) as [[x [Hin [Hl Hmax]]] _].
  exists x. split; [exact Hin|]. split; [exact Hl|].
  apply Hmax. left. reflexivity.
Defined.

(** ** The dates of a download do not depend on the order of the request *)

Section Orden_de_tickers.

Variable yf : string -> Respuesta.

Lemma indice_descargado (tickers : list string) :
  index (fst (descargar_datos yf tickers))
  = filter (fecha_completa yf tickers) (fechas_primer_exito yf tickers).
Proof.
  rewrite descargar_datos_ensamblar. cbn [fst].
  destruct (descargar_bucle_coherente yf tickers (mkDF [] [], []))
    as [_ Hi]; [intros c [] | reflexivity |].
  fold (ensamblar yf tickers) in Hi. simpl in Hi.
  unfold dropna. cbn [index]. rewrite filas_completas_ensamblar.
  rewrite filtrar_map_filter, Hi. reflexivity.
Qed.

Lemma fechas_primer_exito_spec (tickers : list string) :
  (exists t, In t tickers /\ falla yf t = false) ->
  exists t s_idx close,
    In t tickers /\ obtener yf t = inl (s_idx, close) /\
    fechas_primer_exito yf tickers = s_idx.
Proof.
  induction tickers as [|a l IH]; intros [t [Ht F]]; [destruct Ht|].
  simpl. destruct (obtener yf a) as [[s_idx close]|aviso] eqn:E.
  - exists a, s_idx, close. auto.
  - destruct Ht as [->|Ht].
    + unfold falla in F. rewrite E in F. discriminate.
    + destruct IH as [t' [s_idx [close [H1 [H2 H3]]]]]; [eauto|].
      exists t', s_idx, close. auto.
Qed.

Lemma fechas_primer_exito_exito (tickers : list string) (d : Z) :
  In d (fechas_primer_exito yf tickers) ->
  exists t, In t tickers /\ falla yf t = false.
Proof.
  induction tickers as [|a l IH]; simpl; [intros []|].
  destruct (obtener yf a) as [[s_idx close]|aviso] eqn:E.
  - intros _. exists a. split; [auto|]. unfold falla. rewrite E. reflexivity.
  - intros H. destruct (IH H) as [t [Ht F]]. eauto.
Qed.

Lemma buscar_fecha_in (d : Z) (s_idx : list Z) (s : Serie) (v : float) :
  buscar_fecha d (combine s_idx s) = Some v -> In d s_idx.
Proof.
  revert s; induction s_idx as [|d' s_idx IH]; intros [|x s]; simpl;
    try discriminate.
  destruct (Z.eqb_spec d d') as [->|_]; [auto|].
  intros H. right. apply (IH s), H.
Qed.

(** A ticker has a close only on dates of its own response. *)
Lemma valor_en_notna (t : string) (s_idx : list Z) (close : Serie) (d : Z) :
  obtener yf t = inl (s_idx, close) ->
  notna (valor_en yf t d) = true -> In d s_idx.
Proof.
  intros E. unfold valor_en. rewrite E.
  destruct (buscar_fecha d (combine s_idx close)) as [v|] eqn:B.
  - intros _. apply (buscar_fecha_in _ _ _ _ B).
  - discriminate.
Qed.

Lemma fecha_completa_iff (tickers : list string) (d : Z) :
  fecha_completa yf tickers d = true <->
  forall t, In t tickers -> falla yf t = false ->
    notna (valor_en yf t d) = true.
Proof.
  unfold fecha_completa. rewrite forallb_forall. split.
  - intros H t Ht F. specialize (H t Ht). rewrite F in H. exact H.
  - intros H t Ht. destruct (falla yf t) eqn:F; [reflexivity|].
    apply H; assumption.
Qed.

Lemma fechas_comunes (tickers : list string) (d : Z) :
  In d (index (fst (descargar_datos yf tickers))) <->
  (exists t, In t tickers /\ falla yf t = false) /\
  forall t, In t tickers -> falla yf t = false ->
    notna (valor_en yf t d) = true.
Proof.
  rewrite indice_descargado, filter_In, fecha_completa_iff. split.
  - intros [Hd Hc]. split; [|exact Hc].
    apply (fechas_primer_exito_exito _ _ Hd).
  - intros [He Hc]. split; [|exact Hc].
    destruct (fechas_primer_exito_spec tickers He)
      as [t [s_idx [close [Ht [E ->]]]]].
    apply (valor_en_notna t s_idx close d E). apply Hc; [exact Ht|].
    unfold falla. rewrite E. reflexivity.
Qed.

(** X16.  The table [descargar_datos] returns has a row for a date exactly
    when some requested ticker is fetched and every fetched ticker has a
    close on that date; so two requests for the same tickers, in any order,
    give tables with the same dates. *)
Theorem fechas_sin_importar_orden (tickers tickers' : list string) (d : Z) :
  (forall t, In t tickers <-> In t tickers') ->
  (In d (index (fst (descargar_datos yf tickers))) <->
   (exists t, In t tickers /\ falla yf t = false) /\
   forall t, In t tickers -> falla yf t = false ->
     notna (valor_en yf t d) = true) /\
  (In d (index (fst (descargar_datos yf tickers))) <->
   In d (index (fst (descargar_datos yf tickers')))).
Proof.
  intros P. split; [apply fechas_comunes|].
  rewrite !fechas_comunes. split.
  - intros [[t [Ht F]] H]. split.
    + exists t. split; [apply P, Ht | exact F].
    + intros u Hu. apply H, P, Hu.
  - intros [[t [Ht F]] H]. split.
    + exists t. split; [apply P, Ht | exact F].
    + intros u Hu. apply H, P, Hu.
Qed.

End Orden_de_tickers.

(** SPY has three days and BTC-USD five: day 5 is in the table and day 3 is
    not, whichever ticker is requested first. *)
Lemma fechas_sin_importar_orden_witness :
  index (fst (descargar_datos yf_fechas_distintas ["SPY"; "BTC-USD"]%string))
  = [1; 2; 5]%Z /\
  In 5%Z (index (fst (descargar_datos yf_fechas_distintas
                        ["BTC-USD"; "SPY"]%string))) /\
  notna (valor_en yf_fechas_distintas "SPY" 3) = false.
Proof.
  split; [vm_compute; reflexivity|]. split; [|vm_compute; reflexivity].
  apply (fechas_sin_importar_orden yf_fechas_distintas
           ["SPY"; "BTC-USD"]%string ["BTC-USD"; "SPY"]%string 5%Z).
  - intros t. simpl. tauto.
  - vm_compute. auto.
Defined.

(** ** Correlations with an instrument that does not move *)

Section Correlacion_con_plano.

Context {I : Type}.

Lemma mul_cero_o_nan_l (d a : float) :
  cero_o_nan d = true -> cero_o_nan (d * a) = true.
Proof.
  rewrite !cero_o_nan_spec, mul_spec.
  destruct (Prim2SF d) as [s|s| |s k e]; try discriminate;
    destruct (Prim2SF a) as [s'|s'| |s' k' e']; reflexivity.
Qed.

(** Pairs whose first value is always zero keep the first column's
    accumulators at zero, or at NaN; and likewise for the second. *)
Lemma welford_ceros_x (l : list (float * float)) (w : Welford) :
  forallb (fun v => is_zero (fst v)) l = true ->
  cero_o_nan (meanx w) = true -> cero_o_nan (ssqdm_x w) = true ->
  cero_o_nan (ssqdm_x (fold_left welford_paso l w)) = true.
Proof.
  revert w; induction l as [|[vx vy] l IH]; intros w Z Hm Hs; simpl; auto.
  simpl in Z. apply andb_true_iff in Z as [Zx Z].
  apply IH; [exact Z| |]; unfold welford_paso;
    destruct (notna vx && notna vy); simpl; auto.
  - apply add_cero_o_nan; [exact Hm|].
    apply mul_cero_o_nan, sub_cero_o_nan; assumption.
  - apply add_cero_o_nan; [exact Hs|].
    apply mul_cero_o_nan, sub_cero_o_nan; assumption.
Qed.

Lemma welford_ceros_y (l : list (float * float)) (w : Welford) :
  forallb (fun v => is_zero (snd v)) l = true ->
  cero_o_nan (meany w) = true -> cero_o_nan (ssqdm_y w) = true ->
  cero_o_nan (ssqdm_y (fold_left welford_paso l w)) = true.
Proof.
  revert w; induction l as [|[vx vy] l IH]; intros w Z Hm Hs; simpl; auto.
  simpl in Z. apply andb_true_iff in Z as [Zy Z].
  apply IH; [exact Z| |]; unfold welford_paso;
    destruct (notna vx && notna vy); simpl; auto.
  - apply add_cero_o_nan; [exact Hm|].
    apply mul_cero_o_nan, sub_cero_o_nan; assumption.
  - apply add_cero_o_nan; [exact Hs|].
    apply mul_cero_o_nan, sub_cero_o_nan; assumption.
Qed.

Lemma combine_ceros_x (x y : Serie) :
  forallb is_zero x = true ->
  forallb (fun v => is_zero (fst v)) (combine x y) = true.
Proof.
  revert y; induction x as [|a x IH]; intros [|b y] H; simpl; auto.
  simpl in H. apply andb_true_iff in H as [-> H]. simpl. auto.
Qed.

Lemma combine_ceros_y (x y : Serie) :
  forallb is_zero y = true ->
  forallb (fun v => is_zero (snd v)) (combine x y) = true.
Proof.
  revert y; induction x as [|a x IH]; intros [|b y] H; simpl; auto.
  simpl in H. apply andb_true_iff in H as [-> H]. simpl. auto.
Qed.

(** No coefficient comes out of a divisor that is zero or NaN. *)
Lemma coeficiente_sin_divisor (w : Welford) :
  cero_o_nan (ssqdm_x w * ssqdm_y w) = true -> is_nan (coeficiente w) = true.
Proof.
  intros H. apply sqrt_cero_o_nan in H. unfold coeficiente.
  destruct (nobs w <? 1)%nat; [reflexivity|].
  revert H. generalize (PrimFloat.sqrt (ssqdm_x w * ssqdm_y w)). intros d.
  rewrite cero_o_nan_spec. intros H.
  destruct (d =? 0) eqn:D; [reflexivity|].
  assert (N : Prim2SF (covxy w / d) = S754_nan).
  { rewrite FloatAxioms.eqb_spec in D. rewrite div_spec.
    change (Prim2SF 0) with (S754_zero false) in D.
    destruct (Prim2SF d) as [s|s| |s k e]; try discriminate;
      try (destruct s; discriminate).
    destruct (Prim2SF (covxy w)); reflexivity. }
  revert N. generalize (covxy w / d). intros v N.
  unfold recortar. rewrite !ltb_spec, N.
  change (Prim2SF 1) with (S754_finite false 4503599627370496 (-52)).
  change (Prim2SF (-1)) with (S754_finite true 4503599627370496 (-52)).
  simpl. rewrite is_nan_spec, N. reflexivity.
Qed.

Lemma nancorr_par_ceros (x y : Serie) :
  forallb is_zero x = true \/ forallb is_zero y = true ->
  is_nan (nancorr_par x y) = true.
Proof.
  intros H. unfold nancorr_par. apply coeficiente_sin_divisor.
  destruct H as [H|H].
  - apply mul_cero_o_nan_l, welford_ceros_x;
      [apply combine_ceros_x, H | reflexivity | reflexivity].
  - apply mul_cero_o_nan, welford_ceros_y;
      [apply combine_ceros_y, H | reflexivity | reflexivity].
Qed.

(** X17.  When the returns of an instrument are all 0, every entry of its
    row and of its column of the correlation matrix is NaN: the instrument
    has no correlation with any other, nor with itself. *)
Theorem correlacion_con_plano (df : DataFrame I) (a b : nat) :
  (a < ncols df)%nat -> (b < ncols df)%nat ->
  forallb is_zero (columna_n df a) = true ->
  is_nan (iloc (corr df) a b) = true /\ is_nan (iloc (corr df) b a) = true.
Proof.
  intros Ha Hb Z.
  assert (H : is_nan (entrada_corr df a b) = true).
  { unfold entrada_corr.
    destruct (b <=? a)%nat; apply nancorr_par_ceros; auto. }
  rewrite !iloc_corr by assumption.
  split; [exact H|]. rewrite entrada_corr_sym. exact H.
Qed.

End Correlacion_con_plano.

(** Instrument B of the example closes at 50 every day: its correlation
    with A is NaN. *)
Lemma correlacion_con_plano_witness :
  columna_n (dropna (pct_change precios_con_plano)) 1 = [0; 0; 0] /\
  is_nan (iloc (corr (dropna (pct_change precios_con_plano))) 1 0) = true /\
  is_nan (iloc (corr (dropna (pct_change precios_con_plano))) 0 1) = true.
Proof.
  split; [vm_compute; reflexivity|].
  apply (correlacion_con_plano (dropna (pct_change precios_con_plano)) 1 0).
  - vm_compute. lia.
  - vm_compute. lia.
  - reflexivity.
Defined.
